(** * grocery-server: the recipe API of [src/server.ts]

    A shallow embedding of the Express handlers of [server.ts] (the list
    endpoint with its Redis cache-aside protocol, the single-record
    endpoints and the cache invalidation helper), together with the parts
    of the JavaScript runtime, of Redis and of the MongoDB aggregation
    pipeline that the handlers call. *)

From Stdlib Require Import ZArith QArith Qround String Ascii List Lia Bool.
From Stdlib Require Import DecimalString DecimalZ Sorting.Sorted Permutation.
From stdpp Require Import gmap strings.

Set Warnings "-register-all".

(* stdpp keeps [String.append] folded; the proofs below compute with it. *)
#[local] Arguments String.append !_ _ : simpl nomatch.

Local Open Scope Z_scope.
Local Open Scope list_scope.

(** ** JavaScript numbers

    A number is NaN, an infinity, or a finite value kept as a reduced
    rational.  Arithmetic is exact: the rounding of IEEE doubles is not
    modelled, and the conversions between numbers and strings are written
    out for safe integers only (see [Number_of_string], [Number_toString]);
    outside that fragment they are left to the parameters of section
    [Server]. *)

Inductive number : Type :=
  | NaN
  | PosInf
  | NegInf
  | Fin (q : Q).

Definition fin (q : Q) : number := Fin (Qred q).

Definition num (z : Z) : number := Fin (inject_Z z).

Definition normalize_number (n : number) : number :=
  match n with
  | Fin q => fin q
  | _ => n
  end.

(** The integer a number denotes, if it is a finite integer. *)
Definition number_int (n : number) : option Z :=
  match n with
  | Fin q => if Pos.eqb (Qden (Qred q)) 1 then Some (Qnum (Qred q)) else None
  | _ => None
  end.

Definition MAX_SAFE_INTEGER : Z := 9007199254740991.

Definition safe_int (z : Z) : bool := Z.abs z <=? MAX_SAFE_INTEGER.

(** ToBoolean on numbers: NaN and zero are falsy. *)
Definition number_truthy (n : number) : bool :=
  match n with
  | NaN => false
  | Fin q => negb (Qeq_bool q 0)
  | _ => true
  end.

(** [a || b] on numbers. *)
Definition number_or (a b : number) : number :=
  if number_truthy a then a else b.

Definition Math_min (a b : number) : number :=
  match a, b with
  | NaN, _ | _, NaN => NaN
  | NegInf, _ | _, NegInf => NegInf
  | PosInf, x | x, PosInf => x
  | Fin p, Fin q => if Qle_bool p q then Fin p else Fin q
  end.

Definition number_neg (a : number) : number :=
  match a with
  | NaN => NaN
  | PosInf => NegInf
  | NegInf => PosInf
  | Fin q => fin (- q)
  end.

Definition number_add (a b : number) : number :=
  match a, b with
  | NaN, _ | _, NaN => NaN
  | PosInf, NegInf | NegInf, PosInf => NaN
  | PosInf, _ | _, PosInf => PosInf
  | NegInf, _ | _, NegInf => NegInf
  | Fin p, Fin q => fin (p + q)
  end.

Definition number_sub (a b : number) : number := number_add a (number_neg b).

(** Sign of a number: -1, 0 or 1 (NaN has none). *)
Definition number_sign (a : number) : option Z :=
  match a with
  | NaN => None
  | PosInf => Some 1
  | NegInf => Some (-1)
  | Fin q => Some (Z.sgn (Qnum q))
  end.

Definition signed_inf (s : Z) : number :=
  if s =? 0 then NaN else if s <? 0 then NegInf else PosInf.

Definition number_mul (a b : number) : number :=
  match a, b with
  | Fin p, Fin q => fin (p * q)
  | _, _ =>
      match number_sign a, number_sign b with
      | Some s, Some t => signed_inf (s * t)
      | _, _ => NaN
      end
  end.

Definition number_div (a b : number) : number :=
  match a, b with
  | Fin p, Fin q =>
      if Qeq_bool q 0 then signed_inf (Z.sgn (Qnum p)) else fin (p / q)
  | Fin _, PosInf | Fin _, NegInf => num 0
  | PosInf, Fin q => if Qle_bool 0 q then PosInf else NegInf
  | NegInf, Fin q => if Qle_bool 0 q then NegInf else PosInf
  | _, _ => NaN
  end.

Definition Math_ceil (a : number) : number :=
  match a with
  | Fin q => num (Qceiling q)
  | _ => a
  end.

(** [a <= b] on numbers; false when either is NaN. *)
Definition number_leb (a b : number) : bool :=
  match a, b with
  | NaN, _ | _, NaN => false
  | NegInf, _ | _, PosInf => true
  | Fin p, Fin q => Qle_bool p q
  | _, _ => false
  end.

(** ** JavaScript values

    The values that reach the handlers: parsed query-string parameters
    (strings, arrays, nested objects), request bodies, stored documents and
    the objects handed to [res.json].  [undefined] is the [None] of an
    [option value].  An object is its list of own properties in
    insertion order. *)

Inductive value : Type :=
  | VNull
  | VBool (b : bool)
  | VNum (n : number)
  | VStr (s : string)
  | VArr (l : list value)
  | VObj (fields : list (string * value)).

Fixpoint assoc {A : Type} (k : string) (l : list (string * A)) : option A :=
  match l with
  | [] => None
  | (k', v) :: l' => if String.eqb k k' then Some v else assoc k l'
  end.

(** [o?.k]: property [k] of [o], [undefined] when [o] is not an object. *)
Definition get_field (k : string) (o : option value) : option value :=
  match o with
  | Some (VObj fs) => assoc k fs
  | _ => None
  end.

(** [a?.[i]] on arrays. *)
Definition get_index (i : nat) (o : option value) : option value :=
  match o with
  | Some (VArr l) => nth_error l i
  | _ => None
  end.

(** ToBoolean. *)
Definition truthy (o : option value) : bool :=
  match o with
  | None | Some VNull => false
  | Some (VBool b) => b
  | Some (VNum n) => number_truthy n
  | Some (VStr s) => negb (String.eqb s "")
  | Some (VArr _) | Some (VObj _) => true
  end.

Definition string_truthy (s : string) : bool := negb (String.eqb s "").

Fixpoint join (sep : string) (l : list string) : string :=
  match l with
  | [] => ""
  | [s] => s
  | s :: l' => s +:+ sep +:+ join sep l'
  end.

(** ** Characters and prefixes *)

Definition quote_char : ascii := "034"%char.
Definition backslash_char : ascii := "092"%char.

Fixpoint strip_prefix (p s : string) : option string :=
  match p with
  | EmptyString => Some s
  | String a p' =>
      match s with
      | String b s' => if Ascii.eqb a b then strip_prefix p' s' else None
      | EmptyString => None
      end
  end.

Definition is_digit (c : ascii) : bool :=
  let n := N_of_ascii c in ((48 <=? n) && (n <=? 57))%N.

(** Characters of an integer token. *)
Definition is_num_char (c : ascii) : bool :=
  is_digit c || Ascii.eqb c "-".

Fixpoint span (f : ascii -> bool) (s : string) : string * string :=
  match s with
  | EmptyString => (EmptyString, EmptyString)
  | String c s' =>
      if f c then let '(a, b) := span f s' in (String c a, b)
      else (EmptyString, s)
  end.

(** Decimal integer literals: an optional [-] and at least one digit. *)
Definition string_of_Z (z : Z) : string := NilZero.string_of_int (Z.to_int z).

Definition Z_of_string (s : string) : option Z :=
  option_map Z.of_int (NilZero.int_of_string s).

Definition hex_char (n : N) : ascii :=
  if (n <? 10)%N then ascii_of_N (48 + n) else ascii_of_N (87 + n).

Definition hex_value (c : ascii) : option N :=
  let n := N_of_ascii c in
  if ((48 <=? n) && (n <=? 57))%N then Some (n - 48)%N
  else if ((97 <=? n) && (n <=? 102))%N then Some (n - 87)%N
  else if ((65 <=? n) && (n <=? 70))%N then Some (n - 55)%N
  else None.

(** The escape sequence [JSON.stringify] writes for one character of a
    string: the quote, the backslash and the control characters are
    escaped, every other character is copied. *)
Definition escape_char (c : ascii) : string :=
  let n := N_of_ascii c in
  if Ascii.eqb c quote_char then String backslash_char (String quote_char "")
  else if Ascii.eqb c backslash_char
       then String backslash_char (String backslash_char "")
  else if (n =? 8)%N then String backslash_char "b"
  else if (n =? 12)%N then String backslash_char "f"
  else if (n =? 10)%N then String backslash_char "n"
  else if (n =? 13)%N then String backslash_char "r"
  else if (n =? 9)%N then String backslash_char "t"
  else if (n <? 32)%N
       then String backslash_char
              (String "u" (String "0" (String "0"
                 (String (hex_char (n / 16)) (String (hex_char (n mod 16)) "")))))
  else String c "".

Fixpoint escape (s : string) : string :=
  match s with
  | EmptyString => EmptyString
  | String c s' => escape_char c +:+ escape s'
  end.

Definition quote (s : string) : string :=
  String quote_char (escape s +:+ String quote_char "").

(** The character a one-letter escape stands for. *)
Definition unescape_char (e : ascii) : option ascii :=
  if Ascii.eqb e quote_char then Some quote_char
  else if Ascii.eqb e backslash_char then Some backslash_char
  else if Ascii.eqb e "/" then Some "/"%char
  else if Ascii.eqb e "b" then Some (ascii_of_N 8)
  else if Ascii.eqb e "f" then Some (ascii_of_N 12)
  else if Ascii.eqb e "n" then Some (ascii_of_N 10)
  else if Ascii.eqb e "r" then Some (ascii_of_N 13)
  else if Ascii.eqb e "t" then Some (ascii_of_N 9)
  else None.

Definition cons_result (c : ascii) (r : option (string * string))
  : option (string * string) :=
  match r with
  | Some (a, b) => Some (String c a, b)
  | None => None
  end.

(** Reads a string literal after its opening quote, up to and including
    the closing quote.  Of the [\uXXXX] escapes only those of one-byte
    characters ([\u00XX]) are read. *)
Fixpoint decode_string_body (s : string) : option (string * string) :=
  match s with
  | EmptyString => None
  | String c s' =>
      if Ascii.eqb c quote_char then Some (EmptyString, s')
      else if Ascii.eqb c backslash_char then
        match s' with
        | String e s'' =>
            if Ascii.eqb e "u" then
              match s'' with
              | String h1 (String h2 (String h3 (String h4 s3))) =>
                  match hex_value h1, hex_value h2, hex_value h3, hex_value h4 with
                  | Some 0%N, Some 0%N, Some a, Some b =>
                      cons_result (ascii_of_N (16 * a + b)) (decode_string_body s3)
                  | _, _, _, _ => None
                  end
              | _ => None
              end
            else
              match unescape_char e with
              | Some c' => cons_result c' (decode_string_body s'')
              | None => None
              end
        | EmptyString => None
        end
      else cons_result c (decode_string_body s')
  end.

(** Objects that JSON text denotes without loss in this model: numbers
    are safe integers, the keys of an object are pairwise different and
    none starts with a digit (so that insertion order is property
    order). *)
Definition clean_key (k : string) : bool :=
  match k with
  | String c _ => negb (is_digit c)
  | EmptyString => true
  end.

Fixpoint keys_distinct (l : list string) : bool :=
  match l with
  | [] => true
  | k :: l' => negb (existsb (String.eqb k) l') && keys_distinct l'
  end.

Fixpoint json_clean (v : value) : bool :=
  match v with
  | VNull | VBool _ | VStr _ => true
  | VNum (Fin (Qmake z xH)) => safe_int z
  | VNum _ => false
  | VArr l => forallb json_clean l
  | VObj fs =>
      forallb clean_key (map fst fs) && keys_distinct (map fst fs)
      && forallb (fun kv => json_clean (snd kv)) fs
  end.

(** ** Errors and computations

    A handler is a computation over the world (the store, the cache and
    the trace of what was done) that ends normally or throws.  [Env] holds
    what the outside decides during one request: which Redis command and
    whether the store fail, and what the process reports. *)

Record Error : Type := { message : string }.

Inductive result (A : Type) : Type :=
  | Ok (a : A)
  | Throw (e : Error).
Arguments Ok {A} a.
Arguments Throw {A} e.

Inductive RedisCommand : Type :=
  | GET (key : string)
  | SET (key val : string) (ex : Z)
  | DEL (key : string)
  | PING.

Record RegExp : Type := { source : string; flags : string }.

(** MongoDB query filters: [FRegex path re] is [{ path: { $regex: re } }],
    [FOr] is [$or], [FAnd] is a filter object with several conditions. *)
Inductive Filter : Type :=
  | FRegex (path : string) (re : RegExp)
  | FOr (alts : list Filter)
  | FAnd (conds : list Filter).

Inductive Stage : Type :=
  | SSort (field : string) (dir : Z)
  | SSkip (n : number)
  | SLimit (n : number)
  | SProject (fields : list string)
  | SCount (name : string).

Inductive TopStage : Type :=
  | TMatch (f : Filter)
  | TFacet (facets : list (string * list Stage)).

Inductive Event : Type :=
  | ERedis (c : RedisCommand)
  | EAggregate (pipeline : list TopStage)
  | ESave (doc : value)
  | EFindById (id : string)
  | EFindByIdAndUpdate (id : string) (update : value)
  | EFindByIdAndDelete (id : string)
  | EConsoleError (label : string) (e : Error).

Record Entry : Type := { entry_value : string; entry_ttl : Z }.

Record World : Type := {
  db : list value;
  cache : gmap string Entry;
  trace : list Event
}.

Record Env : Type := {
  redis_fault : RedisCommand -> option Error;
  mongo_fault : option Error;
  mongo_readyState : Z;
  new_ObjectId : string;
  process_uptime : number;
  process_memoryUsage : value
}.

Definition M (A : Type) : Type := Env -> World -> World * result A.

Definition ret {A : Type} (a : A) : M A := fun _ w => (w, Ok a).

Definition throw {A : Type} (e : Error) : M A := fun _ w => (w, Throw e).

Definition bind {A B : Type} (m : M A) (k : A -> M B) : M B :=
  fun env w =>
    match m env w with
    | (w', Ok a) => k a env w'
    | (w', Throw e) => (w', Throw e)
    end.

(** [try { m } catch (e) { h e }]. *)
Definition try_catch {A : Type} (m : M A) (h : Error -> M A) : M A :=
  fun env w =>
    match m env w with
    | (w', Ok a) => (w', Ok a)
    | (w', Throw e) => h e env w'
    end.

Notation "x <- m ;; k" := (bind m (fun x => k))
  (at level 100, m at next level, right associativity).
Notation "m ;;; k" := (bind m (fun _ => k))
  (at level 100, right associativity).

Definition log (e : Event) (w : World) : World :=
  {| db := db w; cache := cache w; trace := trace w ++ [e] |}.

Definition emit (e : Event) : M unit := fun _ w => (log e w, Ok tt).

Definition console_error (label : string) (e : Error) : M unit :=
  emit (EConsoleError label e).

Definition lift_result {A : Type} (r : result A) : M A :=
  fun _ w => (w, r).

(** The part of an Express request the handlers read. *)
Record Request : Type := {
  query : list (string * value);
  params_id : string;
  body : value
}.

(** [res.status(status).json(json)]; the bytes sent are the
    [JSON.stringify] of [json]. *)
Record Response : Type := { status : nat; json : value }.

(** The request as Express receives it, before any middleware: the
    parsed query string, the [:id] segment of the path, the [Content-Type]
    header and the bytes of the body. *)
Record Incoming : Type := {
  in_query : list (string * value);
  in_id : string;
  in_content_type : string;
  in_body : string
}.

(** What [bodyParser.json()] makes of a request: [req.body], or the error
    it passes to [next] together with the HTTP status the error carries. *)
Inductive Parsed : Type :=
  | Body_ok (body : value)
  | Body_error (code : nat) (e : Error).

(** What goes out on the wire: the JSON a handler sent with [res.json],
    or the HTML page of Express's default error handler. *)
Inductive Payload : Type :=
  | Json (v : value)
  | Html (text : string).

Record Reply : Type := { reply_status : nat; payload : Payload }.

Definition param (name : string) (o : option value) : list (string * value) :=
  match o with
  | Some v => [(name, v)]
  | None => []
  end.

(** The request [GET /recipes?page=..&pageSize=..&search=..&difficulty=..]
    with the parameters that are given. *)
Definition list_request (page pageSize search difficulty : option value) : Request :=
  {| query := param "page" page ++ param "pageSize" pageSize
              ++ param "search" search ++ param "difficulty" difficulty;
     params_id := "";
     body := VNull |}.

(** ** Redis

    [GET] reads a key, [SET key value EX ttl] writes one, [DEL key]
    removes the key of that very name: [DEL] takes key names, not
    patterns.  The time to live is kept with the entry; no time passes
    between the requests considered here, so no entry expires. *)

Definition redis (c : RedisCommand) : M (option string) :=
  emit (ERedis c) ;;;
  fun env w =>
    match redis_fault env c with
    | Some e => (w, Throw e)
    | None =>
        match c with
        | GET k => (w, Ok (entry_value <$> cache w !! k))
        | SET k v ex =>
            ({| db := db w;
                cache := <[k := {| entry_value := v; entry_ttl := ex |}]> (cache w);
                trace := trace w |}, Ok (Some "OK"))
        | DEL k =>
            ({| db := db w; cache := delete k (cache w); trace := trace w |},
             Ok None)
        | PING => (w, Ok (Some "PONG"))
        end
    end.

Definition redis_get (k : string) : M (option string) := redis (GET k).
Definition redis_set (k v : string) (ex : Z) : M unit :=
  redis (SET k v ex) ;;; ret tt.
Definition redis_del (k : string) : M unit := redis (DEL k) ;;; ret tt.
Definition redis_ping : M (option string) := redis PING.

(** ** A concrete runtime

    One instance of the parameters of section [Server], used to run the
    handlers on concrete requests: numbers are read and printed as plain
    decimal literals (no exponents), JSON texts are read without white
    space, regular expressions are plain texts searched without regard to
    case, identifiers are 24 hexadecimal digits, a recipe needs a [title]
    and gets empty [utensils] and [instructions] when it has none. *)
Module Sample.

Fixpoint all_digits (s : string) : bool :=
  match s with
  | EmptyString => true
  | String c s' => is_digit c && all_digits s'
  end.

(** The value of a non-empty run of digits. *)
Definition digits_value (s : string) : option Z :=
  if String.eqb s "" then None
  else if all_digits s then option_map Z.of_uint (NilEmpty.uint_of_string s)
  else None.

(** The rational a decimal literal denotes: digits, or digits, a point
    and digits, after an optional minus sign. *)
Definition decimal_value (s : string) : option Q :=
  let '(neg, magnitude) :=
    match s with
    | String "-" r => (true, r)
    | _ => (false, s)
    end in
  let '(whole, rest) := span is_digit magnitude in
  let signed (q : Q) := if neg then Qopp q else q in
  match rest with
  | EmptyString => option_map (fun a => signed (inject_Z a)) (digits_value whole)
  | String "." fraction =>
      match digits_value whole, digits_value fraction with
      | Some a, Some b =>
          let d := 10 ^ Z.of_nat (String.length fraction) in
          Some (signed (Qmake (a * d + b) (Z.to_pos d)))
      | _, _ => None
      end
  | _ => None
  end.

Definition Number_other (s : string) : number :=
  match decimal_value s with
  | Some q => Fin q
  | None => NaN
  end.

(** The digits after the point of [r / d], for [0 <= r < d]; at most
    [fuel] of them. *)
Fixpoint fraction_digits (fuel : nat) (r d : Z) : string :=
  match fuel with
  | O => EmptyString
  | S fuel' =>
      if r =? 0 then EmptyString
      else String (ascii_of_N (48 + Z.to_N (r * 10 / d)))
                  (fraction_digits fuel' ((r * 10) mod d) d)
  end.

Definition toString_other (q : Q) : string :=
  let n := Qnum q in
  let d := Zpos (Qden q) in
  let whole := string_of_Z (Z.abs n / d) in
  let sign := if n <? 0 then "-" else "" in
  match fraction_digits 16 (Z.abs n mod d) d with
  | EmptyString => sign +:+ whole
  | fraction => sign +:+ whole +:+ "." +:+ fraction
  end.

Definition is_decimal_char (c : ascii) : bool :=
  is_digit c || Ascii.eqb c "-" || Ascii.eqb c ".".

(** The JSON reader of this runtime: compact JSON text whose numbers are
    decimal literals. *)
Fixpoint parse_value (fuel : nat) (s : string) : option (value * string) :=
  match fuel with
  | O => None
  | S fuel' =>
      match s with
      | EmptyString => None
      | String c r =>
          if is_decimal_char c then
            let '(tok, rest) := span is_decimal_char s in
            option_map (fun q => (VNum (fin q), rest)) (decimal_value tok)
          else if Ascii.eqb c "n" then
            option_map (fun r' => (VNull, r')) (strip_prefix "ull" r)
          else if Ascii.eqb c "t" then
            option_map (fun r' => (VBool true, r')) (strip_prefix "rue" r)
          else if Ascii.eqb c "f" then
            option_map (fun r' => (VBool false, r')) (strip_prefix "alse" r)
          else if Ascii.eqb c quote_char then
            match decode_string_body r with
            | Some (str, r') => Some (VStr str, r')
            | None => None
            end
          else if Ascii.eqb c "[" then
            match strip_prefix "]" r with
            | Some r' => Some (VArr [], r')
            | None =>
                match parse_elems fuel' r with
                | Some (l, r') => Some (VArr l, r')
                | None => None
                end
            end
          else if Ascii.eqb c "{" then
            match strip_prefix "}" r with
            | Some r' => Some (VObj [], r')
            | None =>
                match parse_fields fuel' r with
                | Some (fs, r') => Some (VObj fs, r')
                | None => None
                end
            end
          else None
      end
  end
with parse_elems (fuel : nat) (s : string) : option (list value * string) :=
  match fuel with
  | O => None
  | S fuel' =>
      match parse_value fuel' s with
      | Some (v, String c r) =>
          if Ascii.eqb c "," then
            match parse_elems fuel' r with
            | Some (l, r') => Some (v :: l, r')
            | None => None
            end
          else if Ascii.eqb c "]" then Some ([v], r)
          else None
      | _ => None
      end
  end
with parse_fields (fuel : nat) (s : string)
  : option (list (string * value) * string) :=
  match fuel with
  | O => None
  | S fuel' =>
      match s with
      | String q r =>
          if Ascii.eqb q quote_char then
            match decode_string_body r with
            | Some (k, String colon r1) =>
                if Ascii.eqb colon ":" then
                  match parse_value fuel' r1 with
                  | Some (v, String c r2) =>
                      if Ascii.eqb c "," then
                        match parse_fields fuel' r2 with
                        | Some (fs, r') => Some ((k, v) :: fs, r')
                        | None => None
                        end
                      else if Ascii.eqb c "}" then Some ([(k, v)], r2)
                      else None
                  | _ => None
                  end
                else None
            | _ => None
            end
          else None
      | EmptyString => None
      end
  end.

Definition JSON_parse_other (s : string) : option value :=
  match parse_value (S (String.length s)) s with
  | Some (v, EmptyString) => Some v
  | _ => None
  end.

(** [bodyParser.json()] in its default (strict) mode: a request that is
    not declared as JSON, or has no body, gets the empty object; a JSON
    body must be an object or an array, anything else is a 400. *)
Definition bodyParser_json (inc : Incoming) : Parsed :=
  if negb (String.eqb (in_content_type inc) "application/json") then Body_ok (VObj [])
  else if String.eqb (in_body inc) "" then Body_ok (VObj [])
  else match JSON_parse_other (in_body inc) with
       | Some (VObj fs) => Body_ok (VObj fs)
       | Some (VArr l) => Body_ok (VArr l)
       | _ => Body_error 400 {| message := "Unexpected token in JSON" |}
       end.

Definition Express_error_page (code : nat) (e : Error) : string :=
  "<!DOCTYPE html><html><body><pre>" +:+ message e +:+ "</pre></body></html>".

Definition lower (c : ascii) : ascii :=
  let n := N_of_ascii c in
  if ((65 <=? n) && (n <=? 90))%N then ascii_of_N (n + 32) else c.

Fixpoint lower_string (s : string) : string :=
  match s with
  | EmptyString => EmptyString
  | String c s' => String (lower c) (lower_string s')
  end.

Fixpoint contains (p s : string) : bool :=
  match strip_prefix p s with
  | Some _ => true
  | None =>
      match s with
      | EmptyString => false
      | String _ s' => contains p s'
      end
  end.

Definition RegExp_syntax_error (src fl : string) : option Error :=
  if String.eqb src "(" then
    Some {| message := "Invalid regular expression: /(/: Unterminated group" |}
  else None.

Definition RegExp_test (re : RegExp) (s : string) : bool :=
  if String.eqb (flags re) "i"
  then contains (lower_string (source re)) (lower_string s)
  else contains (source re) s.

(** The document mongoose makes of a stored one: the schema's defaults
    (empty [utensils] and [instructions]) are filled in. *)
Definition with_default (k : string) (fs : list (string * value))
  : list (string * value) :=
  match assoc k fs with
  | Some _ => fs
  | None => fs ++ [(k, VArr [])]
  end.

Definition Recipe_hydrate (d : value) : value :=
  match d with
  | VObj fs => VObj (with_default "instructions" (with_default "utensils" fs))
  | _ => d
  end.

Definition Recipe_new (id : string) (body : value) : value :=
  Recipe_hydrate
    match body with
    | VObj fs => VObj (("_id", VStr id) :: fs)
    | _ => VObj [("_id", VStr id)]
    end.

Definition Recipe_validate (doc : value) : option Error :=
  match get_field "title" (Some doc) with
  | Some (VStr _) => None
  | _ => Some {| message := "Recipe validation failed: title: Path `title` is required." |}
  end.

Definition Recipe_cast_update (update : value) : result value := Ok update.

Definition Recipe_apply_update (d update : value) : value :=
  match d, update with
  | VObj fs, VObj us =>
      VObj (map (fun kv =>
                   match assoc (fst kv) us with
                   | Some v => (fst kv, v)
                   | None => kv
                   end) fs)
  | _, _ => d
  end.

Fixpoint all_hex (s : string) : bool :=
  match s with
  | EmptyString => true
  | String c s' =>
      match hex_value c with
      | Some _ => all_hex s'
      | None => false
      end
  end.

Definition ObjectId_isValid (s : string) : bool :=
  Nat.eqb (String.length s) 24 && all_hex s.

Definition ObjectId_cast (s : string) : result string :=
  if ObjectId_isValid s then Ok (lower_string s)
  else Throw {| message := "Cast to ObjectId failed" |}.

Definition no_fault : Env :=
  {| redis_fault := fun _ => None;
     mongo_fault := None;
     mongo_readyState := 1;
     new_ObjectId := "64b7f0c2a1d3e4f5a6b7c8d9";
     process_uptime := num 12;
     process_memoryUsage := VObj [("rss", VNum (num 1024))] |}.

Definition apple_pie : value :=
  VObj [("_id", VStr "64b7f0c2a1d3e4f5a6b7c8d1");
        ("title", VStr "Apple pie");
        ("ingredients", VArr [VObj [("name", VStr "apple")];
                              VObj [("name", VStr "flour")]]);
        ("difficulty", VStr "Easy")].

Definition banana_bread : value :=
  VObj [("title", VStr "Banana bread");
        ("ingredients", VArr [VObj [("name", VStr "banana")]]);
        ("difficulty", VStr "Medium")].

Definition world0 : World :=
  {| db := [apple_pie]; cache := ∅; trace := [] |}.

Definition request (q : list (string * value)) : Request :=
  {| query := q; params_id := ""; body := VNull |}.

End Sample.

Section Server.

(** *** The runtime outside the modelled fragment

    [Number_other] is [Number(s)] on the strings that are not decimal
    integer literals of a safe integer, [toString_other] is the printing
    of the finite numbers that are not safe integers, and
    [JSON_parse_other] is [JSON.parse] on the texts that are not the
    [JSON.stringify] image of a clean value ([None] when it throws). *)
Variable Number_other : string -> number.
Variable toString_other : Q -> string.
Variable JSON_parse_other : string -> option value.

(** [Number(s)] on a string. *)
Definition Number_of_string (s : string) : number :=
  if String.eqb s "" then num 0
  else if String.eqb s "Infinity" then PosInf
  else if String.eqb s "-Infinity" then NegInf
  else match Z_of_string s with
       | Some z => if safe_int z then num z else normalize_number (Number_other s)
       | None => normalize_number (Number_other s)
       end.

(** Number::toString. *)
Definition Number_toString (n : number) : string :=
  match n with
  | NaN => "NaN"
  | PosInf => "Infinity"
  | NegInf => "-Infinity"
  | Fin q =>
      match number_int n with
      | Some z => if safe_int z then string_of_Z z else toString_other q
      | None => toString_other q
      end
  end.

(** ToString, as a template literal applies it. *)
Fixpoint ToString (v : value) : string :=
  match v with
  | VNull => "null"
  | VBool b => if b then "true" else "false"
  | VNum n => Number_toString n
  | VStr s => s
  | VArr l =>
      join "," (map (fun x => match x with VNull => "" | _ => ToString x end) l)
  | VObj _ => "[object Object]"
  end.

(** [Number(x)]; [undefined] is [None]. *)
Definition Number_ (o : option value) : number :=
  match o with
  | None => NaN
  | Some VNull => num 0
  | Some (VBool b) => if b then num 1 else num 0
  | Some (VNum n) => n
  | Some (VStr s) => Number_of_string s
  | Some v => Number_of_string (ToString v)
  end.

(** *** JSON *)

Fixpoint JSON_stringify (v : value) : string :=
  match v with
  | VNull => "null"
  | VBool b => if b then "true" else "false"
  | VNum (Fin q) => Number_toString (Fin q)
  | VNum _ => "null"
  | VStr s => quote s
  | VArr l => "[" +:+ join "," (map JSON_stringify l) +:+ "]"
  | VObj fs =>
      "{" +:+ join "," (map (fun kv => quote (fst kv) +:+ ":" +:+ JSON_stringify (snd kv)) fs)
      +:+ "}"
  end.

Fixpoint decode_value (fuel : nat) (s : string) : option (value * string) :=
  match fuel with
  | O => None
  | S fuel' =>
      match s with
      | EmptyString => None
      | String c r =>
          if is_num_char c then
            let '(tok, rest) := span is_num_char s in
            match Z_of_string tok with
            | Some z => Some (VNum (num z), rest)
            | None => None
            end
          else if Ascii.eqb c "n" then
            option_map (fun r' => (VNull, r')) (strip_prefix "ull" r)
          else if Ascii.eqb c "t" then
            option_map (fun r' => (VBool true, r')) (strip_prefix "rue" r)
          else if Ascii.eqb c "f" then
            option_map (fun r' => (VBool false, r')) (strip_prefix "alse" r)
          else if Ascii.eqb c quote_char then
            match decode_string_body r with
            | Some (str, r') => Some (VStr str, r')
            | None => None
            end
          else if Ascii.eqb c "[" then
            match strip_prefix "]" r with
            | Some r' => Some (VArr [], r')
            | None =>
                match decode_elems fuel' r with
                | Some (l, r') => Some (VArr l, r')
                | None => None
                end
            end
          else if Ascii.eqb c "{" then
            match strip_prefix "}" r with
            | Some r' => Some (VObj [], r')
            | None =>
                match decode_fields fuel' r with
                | Some (fs, r') => Some (VObj fs, r')
                | None => None
                end
            end
          else None
      end
  end
with decode_elems (fuel : nat) (s : string) : option (list value * string) :=
  match fuel with
  | O => None
  | S fuel' =>
      match decode_value fuel' s with
      | Some (v, String c r) =>
          if Ascii.eqb c "," then
            match decode_elems fuel' r with
            | Some (l, r') => Some (v :: l, r')
            | None => None
            end
          else if Ascii.eqb c "]" then Some ([v], r)
          else None
      | _ => None
      end
  end
with decode_fields (fuel : nat) (s : string)
  : option (list (string * value) * string) :=
  match fuel with
  | O => None
  | S fuel' =>
      match s with
      | String q r =>
          if Ascii.eqb q quote_char then
            match decode_string_body r with
            | Some (k, String colon r1) =>
                if Ascii.eqb colon ":" then
                  match decode_value fuel' r1 with
                  | Some (v, String c r2) =>
                      if Ascii.eqb c "," then
                        match decode_fields fuel' r2 with
                        | Some (fs, r') => Some ((k, v) :: fs, r')
                        | None => None
                        end
                      else if Ascii.eqb c "}" then Some ([(k, v)], r2)
                      else None
                  | _ => None
                  end
                else None
            | _ => None
            end
          else None
      | EmptyString => None
      end
  end.

Definition decode (s : string) : option value :=
  match decode_value (S (String.length s)) s with
  | Some (v, EmptyString) => Some v
  | _ => None
  end.

(** [JSON.parse]: [None] when it throws.  A text that decodes to a clean
    value of which it is the canonical serialization denotes that value;
    any other text is left to [JSON_parse_other]. *)
Definition JSON_parse (s : string) : option value :=
  match decode s with
  | Some v =>
      if json_clean v && String.eqb (JSON_stringify v) s then Some v
      else JSON_parse_other s
  | None => JSON_parse_other s
  end.

(** *** The document store

    The stages of the aggregation pipeline the list endpoint issues, run
    over the documents of the collection.  [RegExp_syntax_error] is the
    SyntaxError [new RegExp(source, flags)] throws, if any, and
    [RegExp_test] is the search of a compiled expression in a string. *)
Variable RegExp_syntax_error : string -> string -> option Error.
Variable RegExp_test : RegExp -> string -> bool.

Definition new_RegExp (src fl : string) : M RegExp :=
  match RegExp_syntax_error src fl with
  | Some e => throw e
  | None => ret {| source := src; flags := fl |}
  end.

Fixpoint split_dot (s : string) : list string :=
  match s with
  | EmptyString => [EmptyString]
  | String c s' =>
      if Ascii.eqb c "." then EmptyString :: split_dot s'
      else match split_dot s' with
           | h :: t => String c h :: t
           | [] => [String c EmptyString]
           end
  end.

(** The values a dotted path reaches in a document; arrays met on the
    way are traversed element by element. *)
Fixpoint path_values (path : list string) (v : value) : list value :=
  match path with
  | [] => [v]
  | k :: rest =>
      let step (x : value) :=
        match x with
        | VObj fs =>
            match assoc k fs with
            | Some y => path_values rest y
            | None => []
            end
        | _ => []
        end in
      match v with
      | VArr l => flat_map step l
      | _ => step v
      end
  end.

Definition regex_leaf (re : RegExp) (v : value) : bool :=
  match v with
  | VStr s => RegExp_test re s
  | VArr l =>
      existsb (fun x => match x with VStr s => RegExp_test re s | _ => false end) l
  | _ => false
  end.

Fixpoint filter_matches (f : Filter) (d : value) : bool :=
  match f with
  | FRegex path re => existsb (regex_leaf re) (path_values (split_dot path) d)
  | FOr alts => existsb (fun g => filter_matches g d) alts
  | FAnd conds => forallb (fun g => filter_matches g d) conds
  end.

(** Sort key of a document: the string under the field, if there is one;
    documents without one come first. *)
Definition sort_key (field : string) (d : value) : option string :=
  match path_values (split_dot field) d with
  | VStr s :: _ => Some s
  | _ => None
  end.

Definition key_le (a b : option string) : bool :=
  match a, b with
  | None, _ => true
  | Some _, None => false
  | Some x, Some y => String.leb x y
  end.

Definition doc_le (field : string) (dir : Z) (a b : value) : bool :=
  if 0 <=? dir then key_le (sort_key field a) (sort_key field b)
  else key_le (sort_key field b) (sort_key field a).

Fixpoint insert_by {A : Type} (le : A -> A -> bool) (x : A) (l : list A) : list A :=
  match l with
  | [] => [x]
  | y :: l' => if le x y then x :: l else y :: insert_by le x l'
  end.

Definition sort_by {A : Type} (le : A -> A -> bool) (l : list A) : list A :=
  fold_right (insert_by le) [] l.

Definition project (fields : list string) (d : value) : value :=
  match d with
  | VObj fs =>
      VObj (List.filter
              (fun kv => String.eqb (fst kv) "_id" || existsb (String.eqb (fst kv)) fields)
              fs)
  | _ => d
  end.

Definition skip_error : Error :=
  {| message := "invalid argument to $skip stage" |}.
Definition limit_error : Error :=
  {| message := "invalid argument to $limit stage" |}.

(** [$skip] takes a non-negative integer and [$limit] a positive one; the
    server rejects anything else. *)
Definition run_stage (st : Stage) (docs : list value) : result (list value) :=
  match st with
  | SSort f dir => Ok (sort_by (doc_le f dir) docs)
  | SSkip n =>
      match number_int n with
      | Some z => if 0 <=? z then Ok (skipn (Z.to_nat z) docs) else Throw skip_error
      | None => Throw skip_error
      end
  | SLimit n =>
      match number_int n with
      | Some z => if 0 <? z then Ok (firstn (Z.to_nat z) docs) else Throw limit_error
      | None => Throw limit_error
      end
  | SProject fields => Ok (map (project fields) docs)
  | SCount name =>
      Ok (match docs with
          | [] => []
          | _ => [VObj [(name, VNum (num (Z.of_nat (length docs))))]]
          end)
  end.

Fixpoint run_stages (p : list Stage) (docs : list value) : result (list value) :=
  match p with
  | [] => Ok docs
  | s :: p' =>
      match run_stage s docs with
      | Ok docs' => run_stages p' docs'
      | Throw e => Throw e
      end
  end.

Fixpoint run_facets (fs : list (string * list Stage)) (docs : list value)
  : result (list (string * value)) :=
  match fs with
  | [] => Ok []
  | (name, p) :: fs' =>
      match run_stages p docs with
      | Ok out =>
          match run_facets fs' docs with
          | Ok rest => Ok ((name, VArr out) :: rest)
          | Throw e => Throw e
          end
      | Throw e => Throw e
      end
  end.

Definition run_top (t : TopStage) (docs : list value) : result (list value) :=
  match t with
  | TMatch f => Ok (List.filter (filter_matches f) docs)
  | TFacet fs =>
      match run_facets fs docs with
      | Ok o => Ok [VObj o]
      | Throw e => Throw e
      end
  end.

Fixpoint run_pipeline (p : list TopStage) (docs : list value) : result (list value) :=
  match p with
  | [] => Ok docs
  | t :: p' =>
      match run_top t docs with
      | Ok docs' => run_pipeline p' docs'
      | Throw e => Throw e
      end
  end.

(** [Recipe.aggregate(pipeline)]. *)
Definition aggregate (p : list TopStage) : M (list value) :=
  emit (EAggregate p) ;;;
  fun env w =>
    match mongo_fault env with
    | Some e => (w, Throw e)
    | None => (w, run_pipeline p (db w))
    end.

(** *** The Recipe model

    [./models/recipe] is not part of the sources at hand, so the schema is
    a parameter: [Recipe_new id body] is the document [new Recipe(body)]
    builds under a fresh identifier, [Recipe_validate] is the error
    validation raises on save, [Recipe_cast_update] casts an update body
    (or fails with a CastError) and [Recipe_apply_update] applies it.
    [ObjectId_isValid] is [mongoose.Types.ObjectId.isValid] and
    [ObjectId_cast] the cast of an identifier in a query: the stored form
    of the identifier, or the CastError.  [Recipe_hydrate] is the
    document the model makes of a stored one when a query returns it
    (defaults of the schema filled in, values cast): what [res.json] sends
    for a fetched recipe is the hydrated document, not the stored one. *)
Variable Recipe_new : string -> value -> value.
Variable Recipe_validate : value -> option Error.
Variable Recipe_cast_update : value -> result value.
Variable Recipe_apply_update : value -> value -> value.
Variable ObjectId_isValid : string -> bool.
Variable ObjectId_cast : string -> result string.
Variable Recipe_hydrate : value -> value.

Definition has_id (oid : string) (d : value) : bool :=
  match get_field "_id" (Some d) with
  | Some (VStr s) => String.eqb s oid
  | _ => false
  end.

Fixpoint replace_first (p : value -> bool) (d' : value) (l : list value) : list value :=
  match l with
  | [] => []
  | d :: l' => if p d then d' :: l' else d :: replace_first p d' l'
  end.

Fixpoint remove_first (p : value -> bool) (l : list value) : list value :=
  match l with
  | [] => []
  | d :: l' => if p d then l' else d :: remove_first p l'
  end.

Definition mongo_guard : M unit :=
  fun env w =>
    match mongo_fault env with
    | Some e => (w, Throw e)
    | None => (w, Ok tt)
    end.

Definition get_db : M (list value) := fun _ w => (w, Ok (db w)).

Definition set_db (docs : list value) : M unit :=
  fun _ w => ({| db := docs; cache := cache w; trace := trace w |}, Ok tt).

(** [newRecipe.save()]. *)
Definition save (doc : value) : M unit :=
  emit (ESave doc) ;;;
  match Recipe_validate doc with
  | Some e => throw e
  | None =>
      mongo_guard ;;;
      docs <- get_db ;;
      set_db (docs ++ [doc])
  end.

(** [Recipe.findById(id)]; [None] is [null]. *)
Definition findById (id : string) : M (option value) :=
  emit (EFindById id) ;;;
  oid <- lift_result (ObjectId_cast id) ;;
  mongo_guard ;;;
  docs <- get_db ;;
  ret (option_map Recipe_hydrate (List.find (has_id oid) docs)).

(** [Recipe.findByIdAndUpdate(id, update, { new: true })]. *)
Definition findByIdAndUpdate (id : string) (update : value) : M (option value) :=
  emit (EFindByIdAndUpdate id update) ;;;
  oid <- lift_result (ObjectId_cast id) ;;
  upd <- lift_result (Recipe_cast_update update) ;;
  mongo_guard ;;;
  docs <- get_db ;;
  match List.find (has_id oid) docs with
  | None => ret None
  | Some d =>
      let d' := Recipe_apply_update d upd in
      set_db (replace_first (has_id oid) d' docs) ;;;
      ret (Some (Recipe_hydrate d'))
  end.

(** [Recipe.findByIdAndDelete(id)]. *)
Definition findByIdAndDelete (id : string) : M (option value) :=
  emit (EFindByIdAndDelete id) ;;;
  oid <- lift_result (ObjectId_cast id) ;;
  mongo_guard ;;;
  docs <- get_db ;;
  match List.find (has_id oid) docs with
  | None => ret None
  | Some d =>
      set_db (remove_first (has_id oid) docs) ;;;
      ret (Some (Recipe_hydrate d))
  end.

(** *** Requests, responses and the handlers of [server.ts] *)

Definition sent_bytes (r : Response) : string := JSON_stringify (json r).

Definition ask : M Env := fun env w => (w, Ok env).

Definition error_details (error details : string) : value :=
  VObj [("error", VStr error); ("details", VStr details)].

Definition error_only (error : string) : value :=
  VObj [("error", VStr error)].

(** [x || d] on values. *)
Definition value_or (o : option value) (d : value) : value :=
  match o with
  | Some v => if truthy o then v else d
  | None => d
  end.

Definition clearRecipeCache : M unit :=
  try_catch (redis_del "recipes:*")
            (fun err => console_error "Redis cache clear error:" err).

(** [GET /health] *)
Definition get_health (req : Request) : M Response :=
  try_catch
    (env <- ask ;;
     let mongoStatus :=
       if mongo_readyState env =? 1 then "Healthy" else "Unhealthy" in
     redisPing <- redis_ping ;;
     let redisStatus :=
       match redisPing with
       | Some s => if String.eqb s "PONG" then "Healthy" else "Unhealthy"
       | None => "Unhealthy"
       end in
     ret {| status := 200;
            json := VObj [("mongoStatus", VStr mongoStatus);
                          ("redisStatus", VStr redisStatus);
                          ("uptime", VNum (process_uptime env));
                          ("memoryUsage", process_memoryUsage env)] |})
    (fun error =>
       ret {| status := 500;
              json := error_details "Health check failed" (message error) |}).

(** [POST /recipes] *)
Definition post_recipes (req : Request) : M Response :=
  try_catch
    (env <- ask ;;
     let newRecipe := Recipe_new (new_ObjectId env) (body req) in
     save newRecipe ;;;
     clearRecipeCache ;;;
     ret {| status := 201; json := newRecipe |})
    (fun error =>
       console_error "Error creating recipe:" error ;;;
       ret {| status := 400;
              json := error_details "Failed to create recipe" (message error) |}).

(** The normalized parameters of [GET /recipes]. *)
Definition page (req : Request) : value :=
  match assoc "page" (query req) with
  | Some v => v
  | None => VNum (num 1)
  end.

Definition pageSize (req : Request) : number :=
  Math_min (number_or (Number_ (assoc "pageSize" (query req))) (num 10)) (num 100).

Definition search (req : Request) : string :=
  match assoc "search" (query req) with
  | Some (VStr s) => s
  | _ => ""
  end.

Definition difficulty (req : Request) : string :=
  match assoc "difficulty" (query req) with
  | Some (VStr s) => s
  | _ => ""
  end.

Definition cacheKey (page : value) (pageSize : number) (search difficulty : string)
  : string :=
  "recipes:page=" +:+ ToString page +:+ "&pageSize=" +:+ Number_toString pageSize
  +:+ "&search=" +:+ search +:+ "&difficulty=" +:+ difficulty.

Definition request_key (req : Request) : string :=
  cacheKey (page req) (pageSize req) (search req) (difficulty req).

(** The [query] object of the list endpoint. *)
Definition build_query (search difficulty : string) : M Filter :=
  d <- (if string_truthy difficulty
        then (re <- new_RegExp difficulty "i" ;; ret [FRegex "difficulty" re])
        else ret []) ;;
  t <- new_RegExp search "i" ;;
  n <- new_RegExp search "i" ;;
  ret (FAnd (d ++ [FOr [FRegex "title" t; FRegex "ingredients.name" n]])).

Definition projected_fields : list string :=
  ["title"; "ingredients"; "utensils"; "difficulty"; "total time"; "instructions"].

Definition skip_of (page : value) (pageSize : number) : number :=
  number_mul (number_sub (Number_ (Some page)) (num 1)) pageSize.

Definition list_pipeline (query : Filter) (page : value) (pageSize : number)
  : list TopStage :=
  [ TMatch query;
    TFacet [ ("recipes", [ SSort "title" 1;
                           SSkip (skip_of page pageSize);
                           SLimit pageSize;
                           SProject projected_fields ]);
             ("totalCount", [ SCount "count" ]) ] ].

Definition type_error : Error :=
  {| message := "Cannot read properties of undefined (reading '0')" |}.

Definition json_syntax_error : Error :=
  {| message := "Unexpected token in JSON" |}.

(** [results[0]?.totalCount[0]?.count || 0]; reading [[0]] of a missing
    [totalCount] is a TypeError. *)
Definition totalRecipes_of (results : list value) : result value :=
  match nth_error results 0 with
  | None => Ok (VNum (num 0))
  | Some r0 =>
      match get_field "totalCount" (Some r0) with
      | None | Some VNull => Throw type_error
      | Some tc =>
          Ok (value_or (get_field "count" (get_index 0 (Some tc))) (VNum (num 0)))
      end
  end.

Definition totalPages_of (totalRecipes : value) (pageSize : number) : number :=
  Math_ceil (number_div (Number_ (Some totalRecipes)) pageSize).

Definition page_result (recipes totalRecipes : value) (totalPages : number)
    (currentPage : value) : value :=
  VObj [("recipes", recipes); ("totalRecipes", totalRecipes);
        ("totalPages", VNum totalPages); ("currentPage", currentPage)].

(** The cache check of the list endpoint: the response on a hit. *)
Definition cache_check (key : string) : M (option Response) :=
  try_catch
    (cachedData <- redis_get key ;;
     match cachedData with
     | Some s =>
         if string_truthy s then
           v <- lift_result (match JSON_parse s with
                             | Some v => Ok v
                             | None => Throw json_syntax_error
                             end) ;;
           ret (Some {| status := 200; json := v |})
         else ret None
     | None => ret None
     end)
    (fun err => console_error "Redis fetch error:" err ;;; ret None).

(** The store path of the list endpoint ("Fetch from database if not in
    cache"): query, shape the PageResult, try to cache it, answer. *)
Definition fetch_from_database (query : Filter) (req : Request) : M Response :=
  let page := page req in
  let pageSize := pageSize req in
  let cacheKey := request_key req in
  results <- aggregate (list_pipeline query page pageSize) ;;
  let recipes := value_or (get_field "recipes" (nth_error results 0)) (VArr []) in
  totalRecipes <- lift_result (totalRecipes_of results) ;;
  let totalPages := totalPages_of totalRecipes pageSize in
  let cacheValue := page_result recipes totalRecipes totalPages page in
  try_catch (redis_set cacheKey (JSON_stringify cacheValue) 3600)
            (fun err => console_error "Redis set error:" err) ;;;
  ret {| status := 200; json := cacheValue |}.

(** [GET /recipes].  The query object is built before the [try]: when
    [new RegExp] throws, the handler throws and no response is sent (the
    rejection only reaches the [unhandledRejection] hook). *)
Definition get_recipes (req : Request) : M Response :=
  query <- build_query (search req) (difficulty req) ;;
  try_catch
    (hit <- cache_check (request_key req) ;;
     match hit with
     | Some response => ret response
     | None => fetch_from_database query req
     end)
    (fun error =>
       console_error "Error fetching recipes:" error ;;;
       ret {| status := 500;
              json := error_details "Failed to fetch recipes" (message error) |}).

(** [GET /recipes/:id] *)
Definition get_recipe_by_id (req : Request) : M Response :=
  let id := params_id req in
  if negb (ObjectId_isValid id) then
    ret {| status := 400; json := error_only "Invalid recipe ID format" |}
  else
    try_catch
      (recipe <- findById id ;;
       match recipe with
       | None => ret {| status := 404; json := error_only "Recipe not found" |}
       | Some r => ret {| status := 200; json := r |}
       end)
      (fun error =>
         console_error "Error fetching recipe by ID:" error ;;;
         ret {| status := 500;
                json := error_details "Failed to fetch recipe" (message error) |}).

(** [PUT /recipes/:id] *)
Definition put_recipe (req : Request) : M Response :=
  let id := params_id req in
  try_catch
    (updatedRecipe <- findByIdAndUpdate id (body req) ;;
     match updatedRecipe with
     | None => ret {| status := 404; json := error_only "Recipe not found" |}
     | Some r =>
         clearRecipeCache ;;;
         ret {| status := 200; json := r |}
     end)
    (fun error =>
       console_error "Error updating recipe:" error ;;;
       ret {| status := 400;
              json := error_details "Failed to update recipe" (message error) |}).

(** [DELETE /recipes/:id] *)
Definition delete_recipe (req : Request) : M Response :=
  let id := params_id req in
  try_catch
    (deletedRecipe <- findByIdAndDelete id ;;
     match deletedRecipe with
     | None => ret {| status := 404; json := error_only "Recipe not found" |}
     | Some _ =>
         clearRecipeCache ;;;
         ret {| status := 200;
                json := VObj [("message", VStr "Recipe deleted successfully")] |}
     end)
    (fun error =>
       console_error "Error deleting recipe:" error ;;;
       ret {| status := 500;
              json := error_details "Failed to delete recipe" (message error) |}).

(** The routes of the application. *)
Inductive Route : Type :=
  | GetHealth
  | PostRecipes
  | GetRecipes
  | GetRecipeById
  | PutRecipe
  | DeleteRecipe.

Definition handle (r : Route) (req : Request) : M Response :=
  match r with
  | GetHealth => get_health req
  | PostRecipes => post_recipes req
  | GetRecipes => get_recipes req
  | GetRecipeById => get_recipe_by_id req
  | PutRecipe => put_recipe req
  | DeleteRecipe => delete_recipe req
  end.

(** *** The application in front of the handlers

    [app.use(bodyParser.json())] runs before every route.  When it
    rejects the body it passes its error on, no handler of [server.ts]
    runs, and, as the application installs no error middleware, Express's
    default error handler answers with the status of the error and an
    HTML page.  Both belong to libraries, so they are parameters:
    [bodyParser_json] is the outcome of the parser on a request and
    [Express_error_page] the page of the default handler. *)
Variable bodyParser_json : Incoming -> Parsed.
Variable Express_error_page : nat -> Error -> string.

(** The request a handler sees once the body is parsed. *)
Definition parsed_request (inc : Incoming) (b : value) : Request :=
  {| query := in_query inc; params_id := in_id inc; body := b |}.

Definition serve (r : Route) (inc : Incoming) : M Reply :=
  match bodyParser_json inc with
  | Body_error code e =>
      ret {| reply_status := code; payload := Html (Express_error_page code e) |}
  | Body_ok b =>
      resp <- handle r (parsed_request inc b) ;;
      ret {| reply_status := status resp; payload := Json (json resp) |}
  end.

(** *** The terms the properties are stated in *)

(** What follows a number in a text: nothing, or a character that cannot
    continue the number. *)
Definition ends_token (rest : string) : Prop :=
  match rest with
  | EmptyString => True
  | String c _ => is_num_char c = false
  end.

Fixpoint all_chars (f : ascii -> bool) (s : string) : bool :=
  match s with
  | EmptyString => true
  | String c s' => f c && all_chars f s'
  end.

Definition stringify_field (kv : string * value) : string :=
  quote (fst kv) +:+ ":" +:+ JSON_stringify (snd kv).

Definition decodes (v : value) : Prop :=
  json_clean v = true ->
  forall fuel rest,
    (String.length (JSON_stringify v) < fuel)%nat ->
    ends_token rest ->
    decode_value fuel (JSON_stringify v +:+ rest) = Some (v, rest).

(** The filter [build_query] builds when both expressions compile. *)
Definition list_query (search difficulty : string) : Filter :=
  FAnd ((if string_truthy difficulty
         then [FRegex "difficulty" {| source := difficulty; flags := "i" |}]
         else [])
        ++ [FOr [FRegex "title" {| source := search; flags := "i" |};
                 FRegex "ingredients.name" {| source := search; flags := "i" |}]]).

(** The outcome of [build_query]: the first SyntaxError, or the filter. *)
Definition query_result (search difficulty : string) : result Filter :=
  match (if string_truthy difficulty
         then RegExp_syntax_error difficulty "i" else None) with
  | Some e => Throw e
  | None =>
      match RegExp_syntax_error search "i" with
      | Some e => Throw e
      | None => Ok (list_query search difficulty)
      end
  end.

(** What the store answers to a pipeline. *)
Definition store_answer (env : Env) (w : World) (p : list TopStage)
  : result (list value) :=
  match mongo_fault env with
  | Some e => Throw e
  | None => run_pipeline p (db w)
  end.

(** The PageResult the store path shapes from the answer of the store. *)
Definition shaped (req : Request) (results : list value) : result value :=
  match totalRecipes_of results with
  | Ok totalRecipes =>
      Ok (page_result (value_or (get_field "recipes" (nth_error results 0)) (VArr []))
                      totalRecipes
                      (totalPages_of totalRecipes (pageSize req))
                      (page req))
  | Throw e => Throw e
  end.

(** The world after the attempt to cache [text] under [key]. *)
Definition after_set (env : Env) (key text : string) (w : World) : World :=
  match redis_fault env (SET key text 3600) with
  | Some e =>
      log (EConsoleError "Redis set error:" e) (log (ERedis (SET key text 3600)) w)
  | None =>
      {| db := db w;
         cache := <[key := {| entry_value := text; entry_ttl := 3600 |}]> (cache w);
         trace := trace w ++ [ERedis (SET key text 3600)] |}
  end.

Definition matching (q : Filter) (docs : list value) : list value :=
  List.filter (filter_matches q) docs.

Definition by_title (docs : list value) : list value :=
  sort_by (doc_le "title" 1) docs.

(** One page: the matching documents in title order, without the first
    [sk], cut after [lim], each reduced to the projected fields. *)
Definition page_of_docs (q : Filter) (sk lim : Z) (docs : list value) : list value :=
  map (project projected_fields)
      (firstn (Z.to_nat lim) (skipn (Z.to_nat sk) (by_title (matching q docs)))).

Definition count_facet (n : nat) : list value :=
  match n with
  | O => []
  | _ => [VObj [("count", VNum (num (Z.of_nat n)))]]
  end.

Definition facet_result (q : Filter) (sk lim : Z) (docs : list value) : list value :=
  [VObj [("recipes", VArr (page_of_docs q sk lim docs));
         ("totalCount", VArr (count_facet (length (matching q docs))))]].

Definition ceil_div (n d : Z) : Z := (n + d - 1) / d.

(** The PageResult of a request, computed from the documents. *)
Definition fresh_page (req : Request) (q : Filter) (sk lim : Z) (docs : list value)
  : value :=
  page_result (VArr (page_of_docs q sk lim docs))
              (VNum (num (Z.of_nat (length (matching q docs)))))
              (num (ceil_div (Z.of_nat (length (matching q docs))) lim))
              (page req).

Definition request_pipeline (req : Request) (q : Filter) : list TopStage :=
  list_pipeline q (page req) (pageSize req).

Definition server_error (e : Error) : Response :=
  {| status := 500; json := error_details "Failed to fetch recipes" (message e) |}.

(** Title order: documents without a title string first, then by title. *)
Definition title_le (a b : value) : Prop := doc_le "title" 1 a b = true.

(** A document has a string under [path] in which the expression
    [/src/i] is found. *)
Definition field_matches (path src : string) (d : value) : bool :=
  existsb (regex_leaf {| source := src; flags := "i" |}) (path_values (split_dot path) d).

Definition is_store_event (ev : Event) : bool :=
  match ev with
  | ERedis _ | EConsoleError _ _ => false
  | _ => true
  end.

Definition is_redis_event (ev : Event) : bool :=
  match ev with
  | ERedis _ => true
  | _ => false
  end.

(** Requests whose page and page size the store accepts: the skip is a
    non-negative integer [sk], the limit a positive integer [lim]. *)
Definition paginates (req : Request) (sk lim : Z) : Prop :=
  number_int (skip_of (page req) (pageSize req)) = Some sk /\ 0 <= sk
  /\ number_int (pageSize req) = Some lim /\ 0 < lim.

(** A collection JSON carries without loss: clean documents, and no more
    of them than a number counts exactly. *)
Definition store_clean (w : World) : Prop :=
  Forall (fun d => json_clean d = true) (db w)
  /\ Z.of_nat (length (db w)) <= MAX_SAFE_INTEGER.

(** The world after [clearRecipeCache]. *)
Definition after_clear (env : Env) (w : World) : World :=
  match redis_fault env (DEL "recipes:*") with
  | Some e =>
      log (EConsoleError "Redis cache clear error:" e)
          (log (ERedis (DEL "recipes:*")) w)
  | None =>
      {| db := db w; cache := delete "recipes:*" (cache w);
         trace := trace w ++ [ERedis (DEL "recipes:*")] |}
  end.

Definition not_found : Response :=
  {| status := 404; json := error_only "Recipe not found" |}.

(** Documents with pairwise different titles (and at most one without
    a title). *)
Definition distinct_titles (docs : list value) : Prop :=
  List.NoDup (map (sort_key "title") docs).

(** The request for page [k + 1] at page size [lim]. *)
Definition page_request (k : nat) (lim : Z) (search difficulty : option value)
  : Request :=
  list_request (Some (VStr (string_of_Z (Z.of_nat k + 1))))
               (Some (VStr (string_of_Z lim))) search difficulty.

(** A text that [JSON.parse] reads back to a value with that same
    serialization, and that is not the empty string.  Every text that
    [JSON.stringify] writes is one in JavaScript; in this model that is
    proved for the clean values ([clean_round_trips]) and depends on
    [JSON_parse_other] for the others. *)
Definition round_trips (text : string) : Prop :=
  string_truthy text = true
  /\ exists v, JSON_parse text = Some v /\ JSON_stringify v = text.





(** ** Properties *)

(** *** Running the primitives *)

Lemma redis_run (c : RedisCommand) (env : Env) (w : World) :
  redis c env w =
  match redis_fault env c with
  | Some e => (log (ERedis c) w, Throw e)
  | None =>
      match c with
      | GET k => (log (ERedis c) w, Ok (entry_value <$> cache w !! k))
      | SET k v ex =>
          ({| db := db w;
              cache := <[k := {| entry_value := v; entry_ttl := ex |}]> (cache w);
              trace := trace w ++ [ERedis c] |}, Ok (Some "OK"))
      | DEL k =>
          ({| db := db w; cache := delete k (cache w);
              trace := trace w ++ [ERedis c] |}, Ok None)
      | PING => (log (ERedis c) w, Ok (Some "PONG"))
      end
  end.
Proof.
  unfold redis, bind, emit. simpl.
  destruct (redis_fault env c); [reflexivity|].
  destruct c; reflexivity.
Qed.

(** The key of a list request is never the name [DEL] is given. *)
Lemma cacheKey_not_pattern (p : value) (ps : number) (s d : string) :
  cacheKey p ps s d <> "recipes:*".
Proof. unfold cacheKey. simpl. discriminate. Qed.

(** What [clearRecipeCache] does to the world: it never throws, leaves
    the store alone and removes at most the key named [recipes:*]. *)
Lemma clearRecipeCache_run (env : Env) (w : World) :
  exists w', clearRecipeCache env w = (w', Ok tt)
    /\ db w' = db w
    /\ (forall k, k <> "recipes:*" -> cache w' !! k = cache w !! k)
    /\ exists tl, trace w' = trace w ++ ERedis (DEL "recipes:*") :: tl
         /\ forall ev, In ev tl -> exists l e, ev = EConsoleError l e.
Proof.
  unfold clearRecipeCache, try_catch, redis_del, bind.
  rewrite redis_run.
  destruct (redis_fault env (DEL "recipes:*")) as [e|].
  - eexists. split; [reflexivity|]. simpl.
    repeat split; auto.
    exists [EConsoleError "Redis cache clear error:" e].
    split; [now rewrite <- app_assoc|].
    intros ev [<-|[]]. eauto.
  - eexists. split; [reflexivity|]. simpl.
    repeat split; auto.
    + intros k Hk. now rewrite lookup_delete_ne.
    + exists []. split; [reflexivity|]. intros ev [].
Qed.

(** *** Strings *)

Lemma append_assoc (a b c : string) : (a +:+ b) +:+ c = a +:+ (b +:+ c).
Proof. induction a as [|x a IH]; simpl; [reflexivity | now rewrite IH]. Qed.

Lemma append_nil_r (a : string) : a +:+ "" = a.
Proof. induction a as [|x a IH]; simpl; [reflexivity | now rewrite IH]. Qed.

Lemma length_append (a b : string) :
  String.length (a +:+ b) = (String.length a + String.length b)%nat.
Proof. induction a as [|x a IH]; simpl; [reflexivity | now rewrite IH]. Qed.

Lemma strip_prefix_append (p r : string) : strip_prefix p (p +:+ r) = Some r.
Proof.
  induction p as [|x p IH]; simpl; [reflexivity|].
  now rewrite Ascii.eqb_refl.
Qed.

Lemma span_append (f : ascii -> bool) (a rest : string) :
  all_chars f a = true ->
  match rest with EmptyString => True | String c _ => f c = false end ->
  span f (a +:+ rest) = (a, rest).
Proof.
  intros Ha Hr. induction a as [|x a IH]; simpl in *.
  - destruct rest as [|c r]; simpl; [reflexivity | now rewrite Hr].
  - apply andb_true_iff in Ha as [Hx Ha]. rewrite Hx, (IH Ha). reflexivity.
Qed.

(** *** Decimal integers *)

Lemma uint_digits (d : Decimal.uint) :
  all_chars is_digit (NilEmpty.string_of_uint d) = true.
Proof. induction d; simpl; auto. Qed.

Lemma string_of_Z_chars (z : Z) : all_chars is_num_char (string_of_Z z) = true.
Proof.
  assert (Hd : forall d, all_chars is_num_char (NilZero.string_of_uint d) = true).
  { intros d. assert (H := uint_digits d).
    assert (Hw : forall s, all_chars is_digit s = true -> all_chars is_num_char s = true).
    { induction s as [|c s IH]; simpl; [reflexivity|].
      intros Hc. apply andb_true_iff in Hc as [H1 H2].
      rewrite (IH H2). unfold is_num_char. now rewrite H1. }
    destruct d; simpl; try reflexivity; apply Hw; exact H. }
  unfold string_of_Z. destruct (Z.to_int z) as [d|d]; simpl.
  - apply Hd.
  - apply Hd.
Qed.

Lemma string_of_Z_nonempty (z : Z) :
  exists c r, string_of_Z z = String c r /\ is_num_char c = true.
Proof.
  assert (H := string_of_Z_chars z).
  destruct (string_of_Z z) as [|c r] eqn:E.
  - exfalso. unfold string_of_Z in E.
    destruct (Z.to_int z) as [d|d]; simpl in E; [|discriminate].
    destruct d; discriminate.
  - exists c, r. simpl in H. apply andb_true_iff in H as [H _]. auto.
Qed.

Lemma Z_of_string_of_Z (z : Z) : Z_of_string (string_of_Z z) = Some z.
Proof.
  unfold Z_of_string, string_of_Z.
  rewrite NilZero.isi.
  - simpl. now rewrite DecimalZ.of_to.
  - destruct z; simpl; try discriminate.
    intros [= H]. now apply DecimalPos.Unsigned.to_uint_nonnil in H.
  - destruct z; simpl; try discriminate.
    intros [= H]. now apply DecimalPos.Unsigned.to_uint_nonnil in H.
Qed.

Lemma Qred_inject_Z (z : Z) : Qred (inject_Z z) = inject_Z z.
Proof.
  unfold Qred, inject_Z. simpl Qnum. simpl Qden.
  generalize (Z.ggcd_gcd z 1), (Z.ggcd_correct_divisors z 1).
  destruct (Z.ggcd z 1) as [g [aa bb]]. simpl.
  rewrite Z.gcd_1_r. intros -> [H1 H2].
  rewrite Z.mul_1_l in H1, H2. subst. reflexivity.
Qed.

Lemma number_int_num (z : Z) : number_int (num z) = Some z.
Proof. unfold number_int, num. now rewrite Qred_inject_Z. Qed.

Lemma Number_toString_num (z : Z) :
  safe_int z = true -> Number_toString (num z) = string_of_Z z.
Proof.
  intros H. unfold Number_toString. change (Fin (inject_Z z)) with (num z).
  now rewrite number_int_num, H.
Qed.

Lemma Number_of_string_of_Z (z : Z) :
  safe_int z = true -> Number_of_string (string_of_Z z) = num z.
Proof.
  intros H. unfold Number_of_string.
  destruct (string_of_Z_nonempty z) as (c & r & E & Hc).
  assert (H1 : String.eqb (string_of_Z z) "" = false).
  { rewrite E. reflexivity. }
  assert (H2 : String.eqb (string_of_Z z) "Infinity" = false).
  { rewrite E. simpl. destruct (Ascii.eqb_spec c "I"); [subst; discriminate|reflexivity]. }
  assert (H3 : String.eqb (string_of_Z z) "-Infinity" = false).
  { apply String.eqb_neq. intros E3.
    assert (Hc3 := string_of_Z_chars z). rewrite E3 in Hc3. discriminate. }
  now rewrite H1, H2, H3, Z_of_string_of_Z, H.
Qed.

(** *** JSON round trip *)

Lemma decode_escape_char (c : ascii) (t : string) :
  decode_string_body (escape_char c +:+ t) = cons_result c (decode_string_body t).
Proof. destruct c as [[] [] [] [] [] [] [] []]; reflexivity. Qed.

Lemma decode_string_body_escape (s rest : string) :
  decode_string_body (escape s +:+ String quote_char rest) = Some (s, rest).
Proof.
  induction s as [|c s IH].
  - reflexivity.
  - cbn [escape]. rewrite append_assoc, decode_escape_char, IH. reflexivity.
Qed.

Lemma quote_append (s rest : string) :
  quote s +:+ rest = String quote_char (escape s +:+ String quote_char rest).
Proof. unfold quote. cbn [String.append]. now rewrite append_assoc. Qed.

(** Induction on values, with the hypothesis available for every element
    of an array and every property of an object. *)
Lemma value_induction (P : value -> Prop) :
  P VNull ->
  (forall b, P (VBool b)) ->
  (forall n, P (VNum n)) ->
  (forall s, P (VStr s)) ->
  (forall l, Forall P l -> P (VArr l)) ->
  (forall fs, Forall (fun kv => P (snd kv)) fs -> P (VObj fs)) ->
  forall v, P v.
Proof.
  intros Hnull Hbool Hnum Hstr Harr Hobj.
  fix IH 1. intros [ | b | n | s | l | fs].
  - exact Hnull.
  - apply Hbool.
  - apply Hnum.
  - apply Hstr.
  - apply Harr. induction l as [|x l IHl]; constructor; [apply IH | exact IHl].
  - apply Hobj. induction fs as [|[k x] fs IHfs]; constructor; [apply IH | exact IHfs].
Qed.

Lemma decode_elems_stringify (l : list value) :
  Forall decodes l -> forallb json_clean l = true -> l <> [] ->
  forall fuel rest,
    (String.length (join "," (map JSON_stringify l)) + 1 < fuel)%nat ->
    decode_elems fuel (join "," (map JSON_stringify l) +:+ String "]" rest)
    = Some (l, rest).
Proof.
  induction 1 as [|v l Hv Hl IH]; [congruence|].
  intros Hc _ fuel rest Hf. simpl in Hc. apply andb_true_iff in Hc as [Hcv Hcl].
  destruct fuel as [|fuel]; [lia|].
  destruct l as [|v' l'].
  - simpl in *. rewrite (Hv Hcv); [| lia | reflexivity]. reflexivity.
  - cbn [map join] in *. rewrite !length_append in Hf. cbn [String.length] in Hf.
    cbn [decode_elems]. rewrite !append_assoc.
    rewrite (Hv Hcv); [| lia | reflexivity].
    cbn [String.append].
    change (Ascii.eqb "," ",") with true. cbv iota.
    rewrite IH; [reflexivity | exact Hcl | discriminate | lia].
Qed.

Lemma decode_fields_stringify (fs : list (string * value)) :
  Forall (fun kv => decodes (snd kv)) fs ->
  forallb (fun kv => json_clean (snd kv)) fs = true -> fs <> [] ->
  forall fuel rest,
    (String.length (join "," (map stringify_field fs)) + 1 < fuel)%nat ->
    decode_fields fuel (join "," (map stringify_field fs) +:+ String "}" rest)
    = Some (fs, rest).
Proof.
  induction 1 as [|[k v] fs Hv Hl IH]; [congruence|].
  intros Hc _ fuel rest Hf. simpl in Hc. apply andb_true_iff in Hc as [Hcv Hcl].
  destruct fuel as [|fuel]; [lia|].
  simpl in Hv.
  destruct fs as [|kv' fs'].
  - cbn [map join] in *. unfold stringify_field in *. cbn [fst snd] in *.
    rewrite !length_append in Hf. cbn [String.length] in Hf.
    rewrite !append_assoc, quote_append.
    cbn [decode_fields]. rewrite Ascii.eqb_refl.
    rewrite decode_string_body_escape. cbn [String.append].
    change (Ascii.eqb ":" ":") with true. cbv iota.
    rewrite (Hv Hcv); [| lia | reflexivity]. reflexivity.
  - cbn [map join] in *. unfold stringify_field at 1. unfold stringify_field at 1 in Hf.
    cbn [fst snd] in *.
    rewrite !length_append in Hf. cbn [String.length] in Hf.
    rewrite !append_assoc, quote_append.
    cbn [decode_fields]. rewrite Ascii.eqb_refl.
    rewrite decode_string_body_escape. cbn [String.append].
    change (Ascii.eqb ":" ":") with true. cbv iota.
    rewrite (Hv Hcv); [| lia | reflexivity].
    change (Ascii.eqb "," ",") with true. cbv iota.
    rewrite IH; [reflexivity | exact Hcl | discriminate | lia].
Qed.

Lemma stringify_first_char (v : value) :
  json_clean v = true ->
  exists c r, JSON_stringify v = String c r
    /\ Ascii.eqb "]" c = false /\ Ascii.eqb "}" c = false.
Proof.
  destruct v as [ | [] | n | s | l | fs]; intros Hc;
    try (eexists _, _; split; [reflexivity | split; reflexivity]).
  destruct n as [ | | | [z [p|p|]]]; try discriminate.
  cbn [JSON_stringify]. change (Fin (z # 1)) with (num z).
  simpl in Hc. rewrite (Number_toString_num _ Hc).
  destruct (string_of_Z_nonempty z) as (c & r & E & Hn).
  exists c, r. split; [exact E|].
  split; [destruct (Ascii.eqb_spec "]" c) | destruct (Ascii.eqb_spec "}" c)];
    try reflexivity; subst c; discriminate.
Qed.

Lemma decode_value_stringify (v : value) : decodes v.
Proof.
  induction v as [ | b | n | s | l IH | fs IH] using value_induction;
    intros Hc fuel rest Hf Hr; (destruct fuel as [|fuel]; [lia|]).
  - reflexivity.
  - destruct b; reflexivity.
  - destruct n as [ | | | [z [p|p|]]]; try discriminate.
    simpl in Hc. cbn [JSON_stringify] in *. change (Fin (z # 1)) with (num z) in *.
    rewrite (Number_toString_num _ Hc) in *.
    destruct (string_of_Z_nonempty z) as (c & r & E & Hn).
    assert (Hs : span is_num_char (string_of_Z z +:+ rest) = (string_of_Z z, rest)).
    { apply span_append; [apply string_of_Z_chars|].
      destruct rest; [exact I | exact Hr]. }
    revert Hs. rewrite E. cbn [String.append decode_value]. rewrite Hn.
    intros ->. rewrite <- E, Z_of_string_of_Z. reflexivity.
  - cbn [JSON_stringify]. rewrite quote_append. cbn [decode_value].
    change (is_num_char quote_char) with false.
    change (Ascii.eqb quote_char "n") with false.
    change (Ascii.eqb quote_char "t") with false.
    change (Ascii.eqb quote_char "f") with false.
    change (Ascii.eqb quote_char quote_char) with true. cbv iota.
    now rewrite decode_string_body_escape.
  - destruct l as [|v l]; [reflexivity|].
    cbn [json_clean] in Hc.
    assert (Hv : json_clean v = true).
    { simpl in Hc. now apply andb_true_iff in Hc as [? _]. }
    destruct (stringify_first_char v Hv) as (c & r & E & Hb & _).
    cbn [JSON_stringify] in *. rewrite !length_append in Hf.
    cbn [String.length String.append] in Hf.
    rewrite !append_assoc. cbn [String.append decode_value].
    change (is_num_char "[") with false.
    change (Ascii.eqb "[" "n") with false.
    change (Ascii.eqb "[" "t") with false.
    change (Ascii.eqb "[" "f") with false.
    change (Ascii.eqb "[" quote_char) with false.
    change (Ascii.eqb "[" "[") with true. cbv iota.
    assert (Hp : strip_prefix "]" (join "," (map JSON_stringify (v :: l)) +:+ String "]" rest) = None).
    { destruct l; cbn [map join]; rewrite E; cbn [String.append strip_prefix];
        now rewrite Hb. }
    rewrite Hp.
    rewrite decode_elems_stringify; [reflexivity | exact IH | exact Hc | discriminate | lia].
  - destruct fs as [|[k v] fs]; [reflexivity|].
    cbn [json_clean] in Hc.
    apply andb_true_iff in Hc as [_ Hc].
    cbn [JSON_stringify] in *. rewrite !length_append in Hf.
    cbn [String.length String.append] in Hf.
    rewrite !append_assoc. cbn [String.append decode_value].
    change (is_num_char "{") with false.
    change (Ascii.eqb "{" "n") with false.
    change (Ascii.eqb "{" "t") with false.
    change (Ascii.eqb "{" "f") with false.
    change (Ascii.eqb "{" quote_char) with false.
    change (Ascii.eqb "{" "[") with false.
    change (Ascii.eqb "{" "{") with true. cbv iota.
    change (map _ ((k, v) :: fs)) with (map stringify_field ((k, v) :: fs)) in *.
    assert (Hp : strip_prefix "}" (join "," (map stringify_field ((k, v) :: fs)) +:+ String "}" rest) = None).
    { destruct fs; cbn [map join]; unfold stringify_field at 1; cbn [fst snd];
        rewrite ?append_assoc, quote_append; reflexivity. }
    rewrite Hp.
    rewrite decode_fields_stringify; [reflexivity | exact IH | exact Hc | discriminate | lia].
Qed.

Lemma decode_stringify (v : value) :
  json_clean v = true -> decode (JSON_stringify v) = Some v.
Proof.
  intros Hc. unfold decode.
  rewrite <- (append_nil_r (JSON_stringify v)) at 2.
  rewrite (decode_value_stringify v Hc); [reflexivity | lia | exact I].
Qed.

(** Parsing the serialization of a clean value gives the value back. *)
Lemma JSON_parse_stringify (v : value) :
  json_clean v = true -> JSON_parse (JSON_stringify v) = Some v.
Proof.
  intros Hc. unfold JSON_parse.
  now rewrite (decode_stringify v Hc), Hc, String.eqb_refl.
Qed.

(** A serialization is never the empty string. *)
Lemma JSON_stringify_truthy (v : value) :
  json_clean v = true -> string_truthy (JSON_stringify v) = true.
Proof.
  intros Hc. destruct (stringify_first_char v Hc) as (c & r & E & _).
  now rewrite E.
Qed.

(** *** The list endpoint, step by step *)

Lemma build_query_run (s d : string) (env : Env) (w : World) :
  build_query s d env w = (w, query_result s d).
Proof.
  unfold build_query, query_result, list_query, bind, new_RegExp.
  destruct (string_truthy d).
  - destruct (RegExp_syntax_error d "i"); [reflexivity|]. cbn.
    destruct (RegExp_syntax_error s "i"); reflexivity.
  - cbn. destruct (RegExp_syntax_error s "i"); reflexivity.
Qed.

Lemma cache_check_run (k : string) (env : Env) (w : World) :
  cache_check k env w =
  match redis_fault env (GET k) with
  | Some e =>
      (log (EConsoleError "Redis fetch error:" e) (log (ERedis (GET k)) w), Ok None)
  | None =>
      match cache w !! k with
      | Some entry =>
          if string_truthy (entry_value entry) then
            match JSON_parse (entry_value entry) with
            | Some v => (log (ERedis (GET k)) w, Ok (Some {| status := 200; json := v |}))
            | None =>
                (log (EConsoleError "Redis fetch error:" json_syntax_error)
                     (log (ERedis (GET k)) w), Ok None)
            end
          else (log (ERedis (GET k)) w, Ok None)
      | None => (log (ERedis (GET k)) w, Ok None)
      end
  end.
Proof.
  unfold cache_check, try_catch, redis_get, bind. rewrite redis_run.
  destruct (redis_fault env (GET k)); [reflexivity|].
  change (cache (log (ERedis (GET k)) w)) with (cache w).
  destruct (cache w !! k) as [entry|]; [|reflexivity]. cbn.
  destruct (string_truthy (entry_value entry)); [|reflexivity].
  unfold lift_result.
  destruct (JSON_parse (entry_value entry)); reflexivity.
Qed.

(** The cache check never throws and touches neither store nor cache. *)
Lemma cache_check_total (k : string) (env : Env) (w : World) :
  exists w' hit, cache_check k env w = (w', Ok hit)
    /\ db w' = db w /\ cache w' = cache w
    /\ exists tl, trace w' = trace w ++ ERedis (GET k) :: tl
         /\ forall ev, In ev tl -> exists l e, ev = EConsoleError l e.
Proof.
  rewrite cache_check_run.
  assert (Hnil : exists tl : list Event,
             trace (log (ERedis (GET k)) w) = trace w ++ ERedis (GET k) :: tl
             /\ forall ev, In ev tl -> exists l e, ev = EConsoleError l e).
  { exists []. split; [reflexivity | intros ev []]. }
  assert (Hone : forall e, exists tl : list Event,
             trace (log (EConsoleError "Redis fetch error:" e) (log (ERedis (GET k)) w))
             = trace w ++ ERedis (GET k) :: tl
             /\ forall ev, In ev tl -> exists l e, ev = EConsoleError l e).
  { intros e. exists [EConsoleError "Redis fetch error:" e]. split.
    - simpl. now rewrite <- app_assoc.
    - intros ev [<-|[]]. eauto. }
  destruct (redis_fault env (GET k)) as [e|].
  { eexists _, _. split; [reflexivity|]. repeat split; auto. }
  destruct (cache w !! k) as [entry|].
  2: { eexists _, _. split; [reflexivity|]. repeat split; auto. }
  destruct (string_truthy (entry_value entry)).
  2: { eexists _, _. split; [reflexivity|]. repeat split; auto. }
  destruct (JSON_parse (entry_value entry)).
  - eexists _, _. split; [reflexivity|]. repeat split; auto.
  - eexists _, _. split; [reflexivity|]. repeat split; auto.
Qed.

Lemma aggregate_run (p : list TopStage) (env : Env) (w : World) :
  aggregate p env w = (log (EAggregate p) w, store_answer env w p).
Proof.
  unfold aggregate, store_answer, bind, emit.
  change (db (log (EAggregate p) w)) with (db w).
  destruct (mongo_fault env); reflexivity.
Qed.

Lemma fetch_from_database_run (q : Filter) (req : Request) (env : Env) (w : World) :
  fetch_from_database q req env w =
  let p := list_pipeline q (page req) (pageSize req) in
  let w1 := log (EAggregate p) w in
  match store_answer env w p with
  | Throw e => (w1, Throw e)
  | Ok results =>
      match shaped req results with
      | Throw e => (w1, Throw e)
      | Ok cacheValue =>
          (after_set env (request_key req) (JSON_stringify cacheValue) w1,
           Ok {| status := 200; json := cacheValue |})
      end
  end.
Proof.
  unfold fetch_from_database, bind. rewrite aggregate_run. cbv zeta.
  destruct (store_answer env w _) as [results|e]; [|reflexivity].
  unfold shaped, lift_result.
  destruct (totalRecipes_of results) as [t|e]; [|reflexivity].
  unfold try_catch, redis_set, bind, after_set. rewrite redis_run.
  destruct (redis_fault env _); reflexivity.
Qed.

(** The list endpoint from beginning to end. *)
Lemma get_recipes_run (req : Request) (env : Env) (w : World) :
  get_recipes req env w =
  match query_result (search req) (difficulty req) with
  | Throw e => (w, Throw e)
  | Ok q =>
      match cache_check (request_key req) env w with
      | (w1, Ok (Some response)) => (w1, Ok response)
      | (w1, Ok None) =>
          match fetch_from_database q req env w1 with
          | (w2, Ok response) => (w2, Ok response)
          | (w2, Throw e) =>
              (log (EConsoleError "Error fetching recipes:" e) w2,
               Ok {| status := 500;
                     json := error_details "Failed to fetch recipes" (message e) |})
          end
      | (w1, Throw e) =>
          (log (EConsoleError "Error fetching recipes:" e) w1,
           Ok {| status := 500;
                 json := error_details "Failed to fetch recipes" (message e) |})
      end
  end.
Proof.
  unfold get_recipes, bind at 1. rewrite build_query_run.
  destruct (query_result _ _) as [q|e]; [|reflexivity].
  unfold try_catch, bind at 1.
  destruct (cache_check _ env w) as [w1 [[response|]|e]]; reflexivity.
Qed.

(** *** What the pipeline computes *)

Lemma list_pipeline_run (q : Filter) (pg : value) (ps : number) (docs : list value) :
  run_pipeline (list_pipeline q pg ps) docs =
  match number_int (skip_of pg ps) with
  | Some sk =>
      if 0 <=? sk then
        match number_int ps with
        | Some lim =>
            if 0 <? lim then Ok (facet_result q sk lim docs) else Throw limit_error
        | None => Throw limit_error
        end
      else Throw skip_error
  | None => Throw skip_error
  end.
Proof.
  unfold list_pipeline.
  cbn [run_pipeline run_top run_facets run_stages run_stage].
  destruct (number_int (skip_of pg ps)) as [sk|]; [|reflexivity].
  destruct (0 <=? sk); [|reflexivity].
  destruct (number_int ps) as [lim|]; [|reflexivity].
  destruct (0 <? lim); [|reflexivity].
  unfold facet_result, page_of_docs, by_title, matching, count_facet.
  destruct (List.filter (filter_matches q) docs); reflexivity.
Qed.

Lemma list_pipeline_ok (q : Filter) (pg : value) (ps : number) (docs results : list value) :
  run_pipeline (list_pipeline q pg ps) docs = Ok results ->
  exists sk lim,
    number_int (skip_of pg ps) = Some sk /\ 0 <= sk
    /\ number_int ps = Some lim /\ 0 < lim
    /\ results = facet_result q sk lim docs.
Proof.
  rewrite list_pipeline_run.
  destruct (number_int (skip_of pg ps)) as [sk|]; [|discriminate].
  destruct (Z.leb_spec 0 sk); [|discriminate].
  destruct (number_int ps) as [lim|]; [|discriminate].
  destruct (Z.ltb_spec 0 lim); [|discriminate].
  intros [= <-]. exists sk, lim. auto.
Qed.

(** *** Pagination arithmetic *)

Lemma ceiling_fraction (n : Z) (p : positive) :
  Qceiling (n # p) = ceil_div n (Z.pos p).
Proof.
  unfold Qceiling, Qfloor, ceil_div. cbn [Qopp Qnum Qden].
  assert (Hp : 0 < Z.pos p) by lia.
  generalize dependent (Z.pos p). intros d Hd.
  pose proof (Z.div_mod (- n) d ltac:(lia)) as H1.
  pose proof (Z.mod_pos_bound (- n) d Hd) as H2.
  apply Z.div_unique with (r := n + d - 1 - d * - (- n / d)); nia.
Qed.

Lemma number_int_Fin (q : Q) (z : Z) :
  number_int (Fin q) = Some z -> q == inject_Z z.
Proof.
  unfold number_int. intros H.
  rewrite <- (Qred_correct q).
  destruct (Qred q) as [a b]. cbn [Qnum Qden] in H.
  destruct (Pos.eqb_spec b 1); [|discriminate].
  injection H as ->. subst b. reflexivity.
Qed.

Lemma number_int_Qeq (q : Q) (z : Z) : q == inject_Z z -> number_int (Fin q) = Some z.
Proof.
  intros H. unfold number_int.
  rewrite (Qred_complete _ _ H), Qred_inject_Z. reflexivity.
Qed.

Lemma number_int_some (n : number) (z : Z) :
  number_int n = Some z -> exists q, n = Fin q /\ q == inject_Z z.
Proof.
  destruct n as [ | | |q]; try discriminate.
  intros H. exists q. split; [reflexivity | now apply number_int_Fin].
Qed.

Lemma totalPages_run (n : nat) (ps : number) (lim : Z) :
  number_int ps = Some lim -> 0 < lim ->
  totalPages_of (VNum (num (Z.of_nat n))) ps = num (ceil_div (Z.of_nat n) lim).
Proof.
  intros Hps Hlim. destruct (number_int_some _ _ Hps) as (q & -> & Hq).
  unfold totalPages_of, Number_, number_div, num at 1.
  assert (Hz : Qeq_bool q 0 = false).
  { destruct (Qeq_bool q 0) eqn:E; [|reflexivity].
    apply Qeq_bool_iff in E. rewrite Hq in E.
    unfold Qeq, inject_Z in E. simpl in E. lia. }
  rewrite Hz. unfold fin, Math_ceil. f_equal.
  destruct lim as [|p|p]; try lia.
  rewrite <- ceiling_fraction.
  apply Qceiling_comp. rewrite Qred_correct, Hq.
  symmetry. apply Qmake_Qdiv.
Qed.

Lemma ceil_div_bounds (n d : Z) :
  0 <= n -> 0 < d ->
  (ceil_div n d - 1) * d < n <= ceil_div n d * d.
Proof.
  intros Hn Hd. unfold ceil_div.
  pose proof (Z.div_mod (n + d - 1) d ltac:(lia)) as H1.
  pose proof (Z.mod_pos_bound (n + d - 1) d Hd) as H2.
  nia.
Qed.

Lemma totalRecipes_facet (q : Filter) (sk lim : Z) (docs : list value) :
  totalRecipes_of (facet_result q sk lim docs)
  = Ok (VNum (num (Z.of_nat (length (matching q docs))))).
Proof.
  unfold totalRecipes_of, facet_result.
  destruct (length (matching q docs)) as [|n]; reflexivity.
Qed.

Lemma shaped_run (req : Request) (q : Filter) (sk lim : Z) (docs : list value) :
  number_int (pageSize req) = Some lim -> 0 < lim ->
  shaped req (facet_result q sk lim docs) =
  Ok (page_result (VArr (page_of_docs q sk lim docs))
                  (VNum (num (Z.of_nat (length (matching q docs)))))
                  (num (ceil_div (Z.of_nat (length (matching q docs))) lim))
                  (page req)).
Proof.
  intros Hps Hlim. unfold shaped.
  rewrite totalRecipes_facet, (totalPages_run _ _ _ Hps Hlim).
  reflexivity.
Qed.

(** *** The three ways the list endpoint answers *)

Lemma fetch_from_database_ok (q : Filter) (req : Request) (env : Env) (w : World)
    (sk lim : Z) :
  mongo_fault env = None ->
  number_int (skip_of (page req) (pageSize req)) = Some sk -> 0 <= sk ->
  number_int (pageSize req) = Some lim -> 0 < lim ->
  fetch_from_database q req env w =
  (after_set env (request_key req) (JSON_stringify (fresh_page req q sk lim (db w)))
             (log (EAggregate (request_pipeline req q)) w),
   Ok {| status := 200; json := fresh_page req q sk lim (db w) |}).
Proof.
  intros Hm Hsk Hsk0 Hlim Hlim0.
  rewrite fetch_from_database_run. cbv zeta.
  unfold store_answer. rewrite Hm, list_pipeline_run, Hsk, Hlim.
  destruct (Z.leb_spec 0 sk); [|lia].
  destruct (Z.ltb_spec 0 lim); [|lia].
  rewrite (shaped_run req q sk lim (db w) Hlim Hlim0). reflexivity.
Qed.

Lemma fetch_from_database_inv (q : Filter) (req : Request) (env : Env) (w w' : World)
    (r : result Response) :
  fetch_from_database q req env w = (w', r) ->
  (exists sk lim,
      mongo_fault env = None
      /\ number_int (skip_of (page req) (pageSize req)) = Some sk /\ 0 <= sk
      /\ number_int (pageSize req) = Some lim /\ 0 < lim
      /\ r = Ok {| status := 200; json := fresh_page req q sk lim (db w) |}
      /\ w' = after_set env (request_key req)
                        (JSON_stringify (fresh_page req q sk lim (db w)))
                        (log (EAggregate (request_pipeline req q)) w))
  \/ (exists e,
        store_answer env w (request_pipeline req q) = Throw e
        /\ r = Throw e
        /\ w' = log (EAggregate (request_pipeline req q)) w).
Proof.
  rewrite fetch_from_database_run. cbv zeta.
  fold (request_pipeline req q).
  destruct (store_answer env w (request_pipeline req q)) as [results|e] eqn:Es.
  2: { intros [= <- <-]. right. exists e. auto. }
  unfold store_answer in Es.
  destruct (mongo_fault env) eqn:Hm; [discriminate|].
  apply list_pipeline_ok in Es as (sk & lim & Hsk & Hsk0 & Hlim & Hlim0 & ->).
  rewrite (shaped_run req q sk lim (db w) Hlim Hlim0).
  intros [= <- <-]. left. exists sk, lim. repeat split; auto.
Qed.


(** *** Cache hits *)

Lemma get_recipes_hit (req : Request) (env : Env) (w : World) (q : Filter)
    (entry : Entry) (v : value) :
  query_result (search req) (difficulty req) = Ok q ->
  redis_fault env (GET (request_key req)) = None ->
  cache w !! request_key req = Some entry ->
  string_truthy (entry_value entry) = true ->
  JSON_parse (entry_value entry) = Some v ->
  get_recipes req env w
  = (log (ERedis (GET (request_key req))) w, Ok {| status := 200; json := v |}).
Proof.
  intros Hq Hget Hentry Ht Hparse.
  now rewrite get_recipes_run, Hq, cache_check_run, Hget, Hentry, Ht, Hparse.
Qed.

(** *** The query key and the page size *)

Lemma list_request_params (pg ps s d : option value) :
  assoc "page" (query (list_request pg ps s d)) = pg
  /\ assoc "pageSize" (query (list_request pg ps s d)) = ps
  /\ assoc "search" (query (list_request pg ps s d)) = s
  /\ assoc "difficulty" (query (list_request pg ps s d)) = d.
Proof. destruct pg, ps, s, d; repeat split; reflexivity. Qed.

Lemma pageSize_of_param (pg ps s d : option value) :
  pageSize (list_request pg ps s d)
  = Math_min (number_or (Number_ ps) (num 10)) (num 100).
Proof.
  unfold pageSize.
  now destruct (list_request_params pg ps s d) as (_ & -> & _).
Qed.

(** C3: two list requests with the same normalized parameters (the raw
    page, the clamped page size, the search text and the difficulty) get
    the same key, which is
    [recipes:page=<page>&pageSize=<pageSize>&search=<search>&difficulty=<difficulty>]
    over the raw page and the clamped page size; page sizes 150 and 100
    both clamp to 100 and give one key. *)
Theorem C3_cache_key_determinism (r1 r2 : Request) :
  page r1 = page r2 -> pageSize r1 = pageSize r2 ->
  search r1 = search r2 -> difficulty r1 = difficulty r2 ->
  request_key r1 = request_key r2
  /\ request_key r1 =
       "recipes:page=" +:+ ToString (page r1)
       +:+ "&pageSize=" +:+ Number_toString (pageSize r1)
       +:+ "&search=" +:+ search r1 +:+ "&difficulty=" +:+ difficulty r1
  /\ (forall v, assoc "page" (query r1) = Some v -> page r1 = v)
  /\ (forall pg s d,
        pageSize (list_request pg (Some (VStr "150")) s d) = num 100
        /\ pageSize (list_request pg (Some (VStr "100")) s d) = num 100
        /\ request_key (list_request pg (Some (VStr "150")) s d)
           = request_key (list_request pg (Some (VStr "100")) s d)).
Proof.
  intros Hp Hs Hq Hd. split; [|split; [|split]].
  - unfold request_key. now rewrite Hp, Hs, Hq, Hd.
  - reflexivity.
  - intros v Hv. unfold page. now rewrite Hv.
  - intros pg s d.
    assert (H150 : pageSize (list_request pg (Some (VStr "150")) s d) = num 100).
    { rewrite pageSize_of_param. reflexivity. }
    assert (H100 : pageSize (list_request pg (Some (VStr "100")) s d) = num 100).
    { rewrite pageSize_of_param. reflexivity. }
    split; [exact H150 | split; [exact H100|]].
    unfold request_key. rewrite H150, H100.
    unfold page, search, difficulty.
    destruct (list_request_params pg (Some (VStr "150")) s d) as (-> & _ & -> & ->).
    destruct (list_request_params pg (Some (VStr "100")) s d) as (-> & _ & -> & ->).
    reflexivity.
Qed.

Lemma number_or_truthy (a : number) :
  number_truthy (number_or a (num 10)) = true.
Proof.
  unfold number_or. destruct (number_truthy a) eqn:E; [exact E | reflexivity].
Qed.

Lemma Math_min_100 (x : number) :
  number_truthy x = true ->
  number_truthy (Math_min x (num 100)) = true
  /\ number_leb (Math_min x (num 100)) (num 100) = true.
Proof.
  destruct x as [ | | |p]; try discriminate; intros Hx.
  - split; reflexivity.
  - split; reflexivity.
  - unfold Math_min, num.
    destruct (Qle_bool p (inject_Z 100)) eqn:E.
    + split; [exact Hx | exact E].
    + split; reflexivity.
Qed.

Lemma pageSize_kept (pg s d : option value) (raw : string) (q : Q) :
  Number_of_string raw = Fin q -> (~ q == 0)%Q -> (q <= inject_Z 100)%Q ->
  pageSize (list_request pg (Some (VStr raw)) s d) = Fin q.
Proof.
  intros Hn H0 H100. rewrite pageSize_of_param. cbn [Number_]. rewrite Hn.
  unfold number_or, number_truthy, Math_min, num.
  destruct (Qeq_bool q 0) eqn:E; [apply Qeq_bool_iff in E; contradiction|].
  cbn [negb]. apply Qle_bool_iff in H100. now rewrite H100.
Qed.

(** C4, as amended: the normalized page size is a number (never NaN,
    never zero) that is at most 100; a page size of 500 is served as 100,
    a page size of 0 or a missing one as 10, and an integer from 1 to 100
    as itself.  Every other finite value of [Number(pageSize)] that is
    not zero and at most 100 is kept as it is: there is no lower clamp (a
    negative integer such as -5 stays -5) and no rounding (whatever
    fraction [Number] reads, such as 2.5, stays that fraction). *)
Theorem C4_page_size_capped (req : Request) :
  number_truthy (pageSize req) = true
  /\ number_leb (pageSize req) (num 100) = true
  /\ (forall pg s d,
        pageSize (list_request pg (Some (VStr "500")) s d) = num 100
        /\ pageSize (list_request pg (Some (VStr "0")) s d) = num 10
        /\ pageSize (list_request pg None s d) = num 10)
  /\ (forall pg s d z, 1 <= z <= 100 ->
        pageSize (list_request pg (Some (VStr (string_of_Z z))) s d) = num z)
  /\ (forall pg s d z, z < 0 -> safe_int z = true ->
        pageSize (list_request pg (Some (VStr (string_of_Z z))) s d) = num z)
  /\ (forall pg s d,
        pageSize (list_request pg (Some (VStr "-5")) s d) = num (-5))
  /\ (forall pg s d raw q,
        Number_of_string raw = Fin q -> (~ q == 0)%Q -> (q <= inject_Z 100)%Q ->
        pageSize (list_request pg (Some (VStr raw)) s d) = Fin q).
Proof.
  assert (Hint : forall pg s d z, z <> 0 -> z <= 100 -> safe_int z = true ->
            pageSize (list_request pg (Some (VStr (string_of_Z z))) s d) = num z).
  { intros pg s d z Hz0 Hz Hsafe.
    apply pageSize_kept.
    - now apply Number_of_string_of_Z.
    - unfold Qeq, inject_Z. simpl. lia.
    - unfold Qle, inject_Z. simpl. lia. }
  split; [|split; [|split; [|split; [|split; [|split]]]]].
  - apply Math_min_100, number_or_truthy.
  - apply Math_min_100, number_or_truthy.
  - intros pg s d. rewrite !pageSize_of_param. repeat split; reflexivity.
  - intros pg s d z Hz. apply Hint; [lia | lia |].
    unfold safe_int, MAX_SAFE_INTEGER. apply Z.leb_le. lia.
  - intros pg s d z Hz Hsafe. apply Hint; [lia | lia | exact Hsafe].
  - intros pg s d. rewrite pageSize_of_param. reflexivity.
  - intros pg s d raw q. apply pageSize_kept.
Qed.

Lemma get_recipes_miss_inv (req : Request) (env : Env) (w w1 w' : World)
    (resp : Response) :
  cache_check (request_key req) env w = (w1, Ok None) ->
  get_recipes req env w = (w', Ok resp) ->
  exists q, query_result (search req) (difficulty req) = Ok q /\
  ((exists sk lim,
       mongo_fault env = None
       /\ number_int (skip_of (page req) (pageSize req)) = Some sk /\ 0 <= sk
       /\ number_int (pageSize req) = Some lim /\ 0 < lim
       /\ resp = {| status := 200; json := fresh_page req q sk lim (db w) |}
       /\ w' = after_set env (request_key req)
                         (JSON_stringify (fresh_page req q sk lim (db w)))
                         (log (EAggregate (request_pipeline req q)) w1))
   \/ (exists e,
        store_answer env w (request_pipeline req q) = Throw e
        /\ resp = server_error e
        /\ w' = log (EConsoleError "Error fetching recipes:" e)
                    (log (EAggregate (request_pipeline req q)) w1))).
Proof.
  intros Hc. rewrite get_recipes_run, Hc.
  destruct (query_result _ _) as [q|e]; [|discriminate].
  intros H. exists q. split; [reflexivity|].
  destruct (cache_check_total (request_key req) env w)
    as (w1' & hit & Hc' & Hdb & _).
  rewrite Hc in Hc'. injection Hc' as <- <-.
  destruct (fetch_from_database q req env w1) as [w2 r] eqn:Ef.
  apply fetch_from_database_inv in Ef
    as [(sk & lim & Hm & Hsk & Hsk0 & Hlim & Hlim0 & -> & ->) | (e & Hs & -> & ->)].
  - injection H as <- <-. left. exists sk, lim.
    rewrite Hdb. repeat split; auto.
  - injection H as <- <-. right. exists e.
    unfold store_answer in *. rewrite Hdb in Hs. repeat split; auto.
Qed.

Lemma after_set_db (env : Env) (k t : string) (w : World) :
  db (after_set env k t w) = db w.
Proof. unfold after_set. destruct (redis_fault env _); reflexivity. Qed.

Lemma after_set_cache (env : Env) (k t : string) (w : World) :
  cache (after_set env k t w) =
  match redis_fault env (SET k t 3600) with
  | Some _ => cache w
  | None => <[k := {| entry_value := t; entry_ttl := 3600 |}]> (cache w)
  end.
Proof. unfold after_set. destruct (redis_fault env _); reflexivity. Qed.

Lemma after_set_trace (env : Env) (k t : string) (w : World) :
  trace (after_set env k t w) =
  trace w ++ ERedis (SET k t 3600)
    :: match redis_fault env (SET k t 3600) with
       | Some e => [EConsoleError "Redis set error:" e]
       | None => []
       end.
Proof.
  unfold after_set. destruct (redis_fault env _); simpl; [|reflexivity].
  now rewrite <- app_assoc.
Qed.







(** *** The combined store query *)

Lemma insert_by_perm {A : Type} (le : A -> A -> bool) (x : A) (l : list A) :
  Permutation (insert_by le x l) (x :: l).
Proof.
  induction l as [|y l IH]; simpl; [reflexivity|].
  destruct (le x y); [reflexivity|].
  rewrite IH. apply perm_swap.
Qed.

Lemma sort_by_perm {A : Type} (le : A -> A -> bool) (l : list A) :
  Permutation (sort_by le l) l.
Proof.
  induction l as [|x l IH]; simpl; [reflexivity|].
  rewrite insert_by_perm. now constructor.
Qed.

Lemma insert_by_sorted {A : Type} (le : A -> A -> bool) (x : A) (l : list A) :
  (forall a b, le a b = false -> le b a = true) ->
  Sorted (fun a b => le a b = true) l ->
  Sorted (fun a b => le a b = true) (insert_by le x l).
Proof.
  intros Htot. induction 1 as [|y l Hs IH Hd]; simpl.
  - repeat constructor.
  - destruct (le x y) eqn:E.
    + constructor; [now constructor | now constructor].
    + constructor; [exact IH|].
      destruct Hd as [|z l Hz]; simpl.
      * constructor. now apply Htot.
      * destruct (le x z); constructor; [now apply Htot | exact Hz].
Qed.

Lemma sort_by_sorted {A : Type} (le : A -> A -> bool) (l : list A) :
  (forall a b, le a b = false -> le b a = true) ->
  Sorted (fun a b => le a b = true) (sort_by le l).
Proof.
  intros Htot. induction l as [|x l IH]; simpl; [constructor|].
  now apply insert_by_sorted.
Qed.

Lemma key_le_total (a b : option string) : key_le a b = false -> key_le b a = true.
Proof.
  destruct a as [x|], b as [y|]; simpl; try congruence.
  intros H. destruct (String.leb_total x y); congruence.
Qed.

Lemma by_title_sorted (l : list value) : Sorted title_le (by_title l).
Proof.
  unfold by_title, title_le. apply sort_by_sorted.
  intros a b. unfold doc_le. cbn. apply key_le_total.
Qed.

Lemma by_title_perm (l : list value) : Permutation (by_title l) l.
Proof. apply sort_by_perm. Qed.

Lemma list_query_matches (s df : string) (d : value) :
  filter_matches (list_query s df) d
  = (if string_truthy df then field_matches "difficulty" df d else true)
    && (field_matches "title" s d || field_matches "ingredients.name" s d).
Proof.
  unfold list_query, field_matches.
  destruct (string_truthy df); cbn [app filter_matches forallb existsb];
    now rewrite andb_true_r, orb_false_r.
Qed.

Lemma console_only_no_store (tl : list Event) :
  (forall ev, In ev tl -> exists l e, ev = EConsoleError l e) ->
  List.filter is_store_event tl = [].
Proof.
  induction tl as [|ev tl IH]; intros H; [reflexivity|].
  destruct (H ev (or_introl eq_refl)) as (l & e & ->). simpl.
  apply IH. intros ev' Hin. apply H. now right.
Qed.

Lemma query_result_ok (s df : string) (q : Filter) :
  query_result s df = Ok q -> q = list_query s df.
Proof.
  unfold query_result.
  destruct (if string_truthy df then RegExp_syntax_error df "i" else None);
    [discriminate|].
  destruct (RegExp_syntax_error s "i"); [discriminate|].
  now intros [= <-].
Qed.

(** C7: when the cache does not answer, the list endpoint issues exactly
    one store query, the combined pipeline: match the search text,
    without regard to case, against the title or an ingredient name, and
    the difficulty too when one is given; sort by title ascending; skip
    [(page - 1) * pageSize] documents; keep [pageSize]; and, apart from
    that, count all matching documents. *)
Theorem C7_single_combined_query (req : Request) (env : Env) (w w1 w' : World)
    (resp : Response) :
  cache_check (request_key req) env w = (w1, Ok None) ->
  get_recipes req env w = (w', Ok resp) ->
  let q := list_query (search req) (difficulty req) in
  (exists evs, trace w' = trace w ++ evs
      /\ List.filter is_store_event evs = [EAggregate (request_pipeline req q)])
  /\ request_pipeline req q =
       [ TMatch q;
         TFacet [ ("recipes",
                   [ SSort "title" 1;
                     SSkip (number_mul (number_sub (Number_ (Some (page req))) (num 1))
                                       (pageSize req));
                     SLimit (pageSize req);
                     SProject projected_fields ]);
                  ("totalCount", [ SCount "count" ]) ] ]
  /\ (forall d,
        filter_matches q d
        = (if string_truthy (difficulty req)
           then field_matches "difficulty" (difficulty req) d else true)
          && (field_matches "title" (search req) d
              || field_matches "ingredients.name" (search req) d))
  /\ (forall sk lim,
        number_int (skip_of (page req) (pageSize req)) = Some sk -> 0 <= sk ->
        number_int (pageSize req) = Some lim -> 0 < lim ->
        run_pipeline (request_pipeline req q) (db w)
        = Ok [VObj [("recipes",
                     VArr (map (project projected_fields)
                             (firstn (Z.to_nat lim)
                                (skipn (Z.to_nat sk) (by_title (matching q (db w)))))));
                    ("totalCount",
                     VArr (count_facet (length (matching q (db w)))))]])
  /\ (forall docs,
        Sorted title_le (by_title (matching q docs))
        /\ Permutation (by_title (matching q docs)) (matching q docs)
        /\ matching q docs = List.filter (filter_matches q) docs).
Proof.
  intros Hc Hrun q.
  split; [|split; [reflexivity|split; [|split]]].
  - destruct (get_recipes_miss_inv _ _ _ _ _ _ Hc Hrun) as (q' & Hq & H).
    apply query_result_ok in Hq. subst q'. fold q in H.
    destruct (cache_check_total (request_key req) env w)
      as (w1' & hit & Hc' & _ & _ & tl & Htr & Htl).
    rewrite Hc in Hc'. injection Hc' as <- <-.
    apply console_only_no_store in Htl.
    destruct H as [(sk & lim & _ & _ & _ & _ & _ & _ & ->) | (e & _ & _ & ->)].
    + rewrite after_set_trace. cbn [log trace]. rewrite Htr.
      eexists. split.
      * rewrite <- !app_assoc. reflexivity.
      * cbn [app List.filter is_store_event]. rewrite !List.filter_app, Htl.
        cbn [app List.filter is_store_event].
        destruct (redis_fault env _); reflexivity.
    + cbn [log trace]. rewrite Htr.
      eexists. split.
      * rewrite <- !app_assoc. reflexivity.
      * cbn [app List.filter is_store_event]. rewrite !List.filter_app, Htl.
        reflexivity.
  - intros d. apply list_query_matches.
  - intros sk lim Hsk Hsk0 Hlim Hlim0.
    unfold request_pipeline. rewrite list_pipeline_run, Hsk, Hlim.
    destruct (Z.leb_spec 0 sk); [|lia].
    destruct (Z.ltb_spec 0 lim); [|lia].
    reflexivity.
  - intros docs. split; [apply by_title_sorted|].
    split; [apply by_title_perm | reflexivity].
Qed.

(** *** Failures of the cache and of the store *)

Lemma get_recipes_store_path (req : Request) (env : Env) (w w1 : World)
    (q : Filter) (sk lim : Z) :
  query_result (search req) (difficulty req) = Ok q ->
  cache_check (request_key req) env w = (w1, Ok None) ->
  mongo_fault env = None ->
  paginates req sk lim ->
  get_recipes req env w =
  (after_set env (request_key req) (JSON_stringify (fresh_page req q sk lim (db w)))
             (log (EAggregate (request_pipeline req q)) w1),
   Ok {| status := 200; json := fresh_page req q sk lim (db w) |}).
Proof.
  intros Hq Hc Hm (Hsk & Hsk0 & Hlim & Hlim0).
  rewrite get_recipes_run, Hq, Hc.
  rewrite (fetch_from_database_ok q req env w1 sk lim Hm Hsk Hsk0 Hlim Hlim0).
  destruct (cache_check_total (request_key req) env w)
    as (w1' & hit & Hc' & Hdb & _).
  rewrite Hc in Hc'. injection Hc' as <- <-. now rewrite Hdb.
Qed.

Lemma get_recipes_store_failure (req : Request) (env : Env) (w w1 : World)
    (q : Filter) (e : Error) :
  query_result (search req) (difficulty req) = Ok q ->
  cache_check (request_key req) env w = (w1, Ok None) ->
  store_answer env w (request_pipeline req q) = Throw e ->
  get_recipes req env w =
  (log (EConsoleError "Error fetching recipes:" e)
       (log (EAggregate (request_pipeline req q)) w1),
   Ok (server_error e)).
Proof.
  intros Hq Hc Hs.
  rewrite get_recipes_run, Hq, Hc, fetch_from_database_run. cbv zeta.
  destruct (cache_check_total (request_key req) env w)
    as (w1' & hit & Hc' & Hdb & _).
  rewrite Hc in Hc'. injection Hc' as <- <-.
  fold (request_pipeline req q).
  assert (Hs1 : store_answer env w1 (request_pipeline req q) = Throw e).
  { unfold store_answer in *. now rewrite Hdb. }
  now rewrite Hs1.
Qed.

(** C2: on the list endpoint a failing cache never fails the request.  A
    failed cache read is logged and the PageResult computed from the store
    is returned; a failed cache write is logged and the PageResult is
    returned all the same; a failed store query is answered with a 500
    whose body is [{error, details}]. *)
Theorem C2_cache_failures_absorbed (req : Request) (env : Env) (w : World)
    (q : Filter) :
  query_result (search req) (difficulty req) = Ok q ->
  (forall e sk lim,
      redis_fault env (GET (request_key req)) = Some e ->
      mongo_fault env = None -> paginates req sk lim ->
      exists w',
        get_recipes req env w
        = (w', Ok {| status := 200; json := fresh_page req q sk lim (db w) |})
        /\ In (EConsoleError "Redis fetch error:" e) (trace w')
        /\ In (EAggregate (request_pipeline req q)) (trace w')
        /\ db w' = db w)
  /\ (forall w1 e sk lim,
        cache_check (request_key req) env w = (w1, Ok None) ->
        mongo_fault env = None -> paginates req sk lim ->
        redis_fault env (SET (request_key req)
                             (JSON_stringify (fresh_page req q sk lim (db w))) 3600)
        = Some e ->
        exists w',
          get_recipes req env w
          = (w', Ok {| status := 200; json := fresh_page req q sk lim (db w) |})
          /\ In (EConsoleError "Redis set error:" e) (trace w')
          /\ cache w' = cache w /\ db w' = db w)
  /\ (forall w1 e,
        cache_check (request_key req) env w = (w1, Ok None) ->
        store_answer env w (request_pipeline req q) = Throw e ->
        exists w',
          get_recipes req env w
          = (w', Ok {| status := 500;
                       json := VObj [("error", VStr "Failed to fetch recipes");
                                     ("details", VStr (message e))] |}))
  /\ (exists w' resp, get_recipes req env w = (w', Ok resp)).
Proof.
  intros Hq. split; [|split; [|split]].
  - intros e sk lim Hget Hm Hp.
    assert (Hc : cache_check (request_key req) env w
                 = (log (EConsoleError "Redis fetch error:" e)
                        (log (ERedis (GET (request_key req))) w), Ok None)).
    { rewrite cache_check_run, Hget. reflexivity. }
    eexists. split; [exact (get_recipes_store_path _ _ _ _ _ _ _ Hq Hc Hm Hp)|].
    rewrite after_set_db, after_set_trace. cbn [log trace db].
    split; [|split; [|reflexivity]].
    + apply in_or_app. left. apply in_or_app. left.
      apply in_or_app. right. now left.
    + apply in_or_app. left. apply in_or_app. right. now left.
  - intros w1 e sk lim Hc Hm Hp Hset.
    eexists. split; [exact (get_recipes_store_path _ _ _ _ _ _ _ Hq Hc Hm Hp)|].
    destruct (cache_check_total (request_key req) env w)
      as (w1' & hit & Hc' & Hdb & Hcache & _).
    rewrite Hc in Hc'. injection Hc' as <- <-.
    rewrite after_set_db, after_set_trace, after_set_cache, Hset. cbn [log cache db].
    split; [|split; [exact Hcache | exact Hdb]].
    apply in_or_app. right. right. now left.
  - intros w1 e Hc Hs. eexists.
    exact (get_recipes_store_failure _ _ _ _ _ _ Hq Hc Hs).
  - rewrite get_recipes_run, Hq.
    destruct (cache_check_total (request_key req) env w) as (w1 & hit & -> & _).
    destruct hit as [response|]; [eauto|].
    destruct (fetch_from_database q req env w1) as [w2 [response|e]]; eauto.
Qed.

Lemma filter_keys_exists (g : string * value -> bool) (k : string)
    (fs : list (string * value)) :
  existsb (String.eqb k) (map fst (List.filter g fs)) = true ->
  existsb (String.eqb k) (map fst fs) = true.
Proof.
  induction fs as [|kv fs IH]; simpl; [auto|].
  destruct (g kv); simpl.
  - intros H. apply orb_true_iff in H as [H|H].
    + now rewrite H.
    + rewrite (IH H). apply orb_true_r.
  - intros H. rewrite (IH H). apply orb_true_r.
Qed.

Lemma filter_keys_distinct (g : string * value -> bool) (fs : list (string * value)) :
  keys_distinct (map fst fs) = true ->
  keys_distinct (map fst (List.filter g fs)) = true.
Proof.
  induction fs as [|kv fs IH]; simpl; [auto|].
  intros H. apply andb_true_iff in H as [H1 H2].
  destruct (g kv); simpl; [|auto].
  rewrite (IH H2), andb_true_r.
  destruct (existsb (String.eqb (fst kv)) (map fst (List.filter g fs))) eqn:E;
    [|reflexivity].
  apply filter_keys_exists in E. now rewrite E in H1.
Qed.

Lemma filter_forallb {A : Type} (f g : A -> bool) (l : list A) :
  forallb f l = true -> forallb f (List.filter g l) = true.
Proof.
  induction l as [|x l IH]; simpl; [auto|].
  intros H. apply andb_true_iff in H as [H1 H2].
  destruct (g x); simpl; [now rewrite H1, IH | auto].
Qed.

Lemma filter_map_fst_forallb (f : string -> bool) (g : string * value -> bool)
    (fs : list (string * value)) :
  forallb f (map fst fs) = true -> forallb f (map fst (List.filter g fs)) = true.
Proof.
  induction fs as [|kv fs IH]; simpl; [auto|].
  intros H. apply andb_true_iff in H as [H1 H2].
  destruct (g kv); simpl; [now rewrite H1, IH | auto].
Qed.

Lemma project_clean (fields : list string) (d : value) :
  json_clean d = true -> json_clean (project fields d) = true.
Proof.
  destruct d as [ | | | | |fs]; auto.
  cbn [project json_clean]. intros H.
  apply andb_true_iff in H as [H H3]. apply andb_true_iff in H as [H1 H2].
  rewrite filter_map_fst_forallb, filter_keys_distinct, filter_forallb; auto.
Qed.

Lemma page_of_docs_clean (q : Filter) (sk lim : Z) (docs : list value) :
  Forall (fun d => json_clean d = true) docs ->
  forallb json_clean (page_of_docs q sk lim docs) = true.
Proof.
  intros Hdocs. rewrite List.Forall_forall in Hdocs.
  apply forallb_forall. intros x Hx.
  unfold page_of_docs in Hx. apply in_map_iff in Hx as (d & <- & Hd).
  apply project_clean, Hdocs.
  assert (H1 : In d (skipn (Z.to_nat sk) (by_title (matching q docs)))).
  { rewrite <- (firstn_skipn (Z.to_nat lim) (skipn _ _)).
    apply in_or_app. now left. }
  assert (H2 : In d (by_title (matching q docs))).
  { rewrite <- (firstn_skipn (Z.to_nat sk) (by_title _)).
    apply in_or_app. now right. }
  apply (Permutation_in _ (by_title_perm _)) in H2.
  unfold matching in H2. now apply filter_In in H2 as [H2 _].
Qed.

Lemma matching_length (q : Filter) (docs : list value) :
  (length (matching q docs) <= length docs)%nat.
Proof.
  unfold matching. induction docs as [|d docs IH]; simpl; [lia|].
  destruct (filter_matches q d); simpl; lia.
Qed.

Lemma fresh_page_clean (req : Request) (q : Filter) (sk lim : Z) (w : World) :
  store_clean w -> 0 < lim -> json_clean (page req) = true ->
  json_clean (fresh_page req q sk lim (db w)) = true.
Proof.
  intros [Hdocs Hlen] Hlim Hpage.
  pose proof (matching_length q (db w)) as Hm.
  pose proof (ceil_div_bounds (Z.of_nat (length (matching q (db w)))) lim
                ltac:(lia) Hlim) as Hb.
  unfold fresh_page, page_result.
  cbn [json_clean map fst snd forallb clean_key keys_distinct existsb].
  rewrite (page_of_docs_clean q sk lim _ Hdocs), Hpage.
  assert (H1 : safe_int (Z.of_nat (length (matching q (db w)))) = true).
  { apply Z.leb_le. lia. }
  assert (H2 : safe_int (ceil_div (Z.of_nat (length (matching q (db w)))) lim) = true).
  { apply Z.leb_le. nia. }
  unfold num, inject_Z. rewrite H1, H2. reflexivity.
Qed.

Lemma clean_round_trips (v : value) :
  json_clean v = true -> round_trips (JSON_stringify v).
Proof.
  intros Hc. split; [now apply JSON_stringify_truthy|].
  exists v. split; [now apply JSON_parse_stringify | reflexivity].
Qed.

(** C5: a list query that misses the cache and is repeated at once gets,
    the second time, the bytes of the first answer, from the cache and
    without a store query, whatever the collection holds: all that is
    used of the first answer is that its text is one [JSON.parse] reads
    back, which is proved where the collection is clean and is the law
    of [JSON.parse] and [JSON.stringify] elsewhere.  And whenever the
    cache holds a value for the key, the value is parsed and returned,
    and the store is not asked. *)
Theorem C5_cache_population_idempotent (req : Request) (env1 env2 : Env)
    (w w1 : World) (resp1 : Response) :
  redis_fault env1 (GET (request_key req)) = None ->
  cache w !! request_key req = None ->
  (forall text, redis_fault env1 (SET (request_key req) text 3600) = None) ->
  redis_fault env2 (GET (request_key req)) = None ->
  get_recipes req env1 w = (w1, Ok resp1) ->
  status resp1 = 200%nat ->
  (store_clean w /\ json_clean (page req) = true) \/ round_trips (sent_bytes resp1) ->
  (exists resp2,
      get_recipes req env2 w1 = (log (ERedis (GET (request_key req))) w1, Ok resp2)
      /\ sent_bytes resp2 = sent_bytes resp1
      /\ status resp2 = 200%nat
      /\ (exists q, In (EAggregate (request_pipeline req q)) (trace w1))
      /\ (store_clean w -> json_clean (page req) = true -> json resp2 = json resp1))
  /\ (forall w0 q entry v,
        query_result (search req) (difficulty req) = Ok q ->
        cache w0 !! request_key req = Some entry ->
        string_truthy (entry_value entry) = true ->
        JSON_parse (entry_value entry) = Some v ->
        exists w2,
          get_recipes req env2 w0 = (w2, Ok {| status := 200; json := v |})
          /\ trace w2 = trace w0 ++ [ERedis (GET (request_key req))]
          /\ db w2 = db w0 /\ cache w2 = cache w0).
Proof.
  intros Hget1 Hmiss Hset1 Hget2 Hrun Hst Hjson.
  assert (Hc : cache_check (request_key req) env1 w
               = (log (ERedis (GET (request_key req))) w, Ok None)).
  { now rewrite cache_check_run, Hget1, Hmiss. }
  destruct (get_recipes_miss_inv _ _ _ _ _ _ Hc Hrun) as (q & Hq & [H|H]).
  2: { destruct H as (e & _ & -> & _). discriminate. }
  destruct H as (sk & lim & _ & _ & _ & _ & Hlim0 & -> & ->).
  unfold sent_bytes in *. cbn [json] in *.
  set (cv := fresh_page req q sk lim (db w)) in *.
  assert (Hrt : round_trips (JSON_stringify cv)).
  { destruct Hjson as [[Hclean Hpage]|Hrt]; [|exact Hrt].
    apply clean_round_trips. now apply fresh_page_clean. }
  destruct Hrt as (Ht & v & Hparse & Hv).
  split.
  - exists {| status := 200; json := v |}. cbn [json status].
    split; [|split; [exact Hv | split; [reflexivity | split]]].
    + apply (get_recipes_hit req env2 _ q
               {| entry_value := JSON_stringify cv; entry_ttl := 3600 |});
        [ exact Hq | exact Hget2 | | exact Ht | exact Hparse ].
      rewrite after_set_cache, Hset1. apply lookup_insert_eq.
    + exists q.
      rewrite after_set_trace. apply in_or_app. left.
      cbn [log trace]. apply in_or_app. right. now left.
    + intros Hclean Hpage.
      pose proof (fresh_page_clean req q sk lim w Hclean Hlim0 Hpage) as Hcv.
      fold cv in Hcv. rewrite (JSON_parse_stringify cv Hcv) in Hparse.
      now injection Hparse as <-.
  - intros w0 q0 entry v0 Hq0 Hentry Ht0 Hparse0.
    eexists. split.
    + exact (get_recipes_hit req env2 w0 q0 entry v0 Hq0 Hget2 Hentry Ht0 Hparse0).
    + repeat split; reflexivity.
Qed.

(** *** The single-record endpoints *)

Lemma clearRecipeCache_eq (env : Env) (w : World) :
  clearRecipeCache env w = (after_clear env w, Ok tt).
Proof.
  unfold clearRecipeCache, try_catch, redis_del, bind, after_clear.
  rewrite redis_run. destruct (redis_fault env _); reflexivity.
Qed.

Lemma after_clear_db (env : Env) (w : World) : db (after_clear env w) = db w.
Proof. unfold after_clear. destruct (redis_fault env _); reflexivity. Qed.

Lemma after_clear_trace (env : Env) (w : World) :
  trace (after_clear env w) =
  trace w ++ ERedis (DEL "recipes:*")
    :: match redis_fault env (DEL "recipes:*") with
       | Some e => [EConsoleError "Redis cache clear error:" e]
       | None => []
       end.
Proof.
  unfold after_clear. destruct (redis_fault env _); simpl; [|reflexivity].
  now rewrite <- app_assoc.
Qed.

(** [clearRecipeCache] removes no entry of a list request. *)
Lemma after_clear_list_entry (env : Env) (w : World) (r : Request) :
  cache (after_clear env w) !! request_key r = cache w !! request_key r.
Proof.
  unfold after_clear. destruct (redis_fault env _); [reflexivity|].
  cbn [cache]. apply lookup_delete_ne.
  intros H. symmetry in H. revert H. apply cacheKey_not_pattern.
Qed.

Lemma save_run (doc : value) (env : Env) (w : World) :
  save doc env w =
  let w1 := log (ESave doc) w in
  match Recipe_validate doc with
  | Some e => (w1, Throw e)
  | None =>
      match mongo_fault env with
      | Some e => (w1, Throw e)
      | None => ({| db := db w ++ [doc]; cache := cache w; trace := trace w1 |}, Ok tt)
      end
  end.
Proof.
  unfold save, bind, emit, throw, mongo_guard, get_db, set_db. cbv zeta.
  destruct (Recipe_validate doc); [reflexivity|].
  destruct (mongo_fault env); reflexivity.
Qed.

Lemma post_recipes_run (req : Request) (env : Env) (w : World) :
  post_recipes req env w =
  let doc := Recipe_new (new_ObjectId env) (body req) in
  let w1 := log (ESave doc) w in
  let failed e :=
    (log (EConsoleError "Error creating recipe:" e) w1,
     Ok {| status := 400;
           json := error_details "Failed to create recipe" (message e) |}) in
  match Recipe_validate doc with
  | Some e => failed e
  | None =>
      match mongo_fault env with
      | Some e => failed e
      | None =>
          (after_clear env {| db := db w ++ [doc]; cache := cache w; trace := trace w1 |},
           Ok {| status := 201; json := doc |})
      end
  end.
Proof.
  unfold post_recipes, try_catch, bind, ask. rewrite save_run. cbv zeta.
  destruct (Recipe_validate _); [reflexivity|].
  destruct (mongo_fault env); [reflexivity|].
  now rewrite clearRecipeCache_eq.
Qed.

Lemma findById_run (id : string) (env : Env) (w : World) :
  findById id env w =
  let w1 := log (EFindById id) w in
  match ObjectId_cast id with
  | Throw e => (w1, Throw e)
  | Ok oid =>
      match mongo_fault env with
      | Some e => (w1, Throw e)
      | None =>
          match List.find (has_id oid) (db w) with
          | None => (w1, Ok None)
          | Some d => (w1, Ok (Some (Recipe_hydrate d)))
          end
      end
  end.
Proof.
  unfold findById, bind, emit, lift_result, mongo_guard, get_db, ret. cbv zeta.
  destruct (ObjectId_cast id); [|reflexivity].
  destruct (mongo_fault env); [reflexivity|].
  cbn [db log]. destruct (List.find _ (db w)); reflexivity.
Qed.

Lemma findByIdAndUpdate_run (id : string) (update : value) (env : Env) (w : World) :
  findByIdAndUpdate id update env w =
  let w1 := log (EFindByIdAndUpdate id update) w in
  match ObjectId_cast id with
  | Throw e => (w1, Throw e)
  | Ok oid =>
      match Recipe_cast_update update with
      | Throw e => (w1, Throw e)
      | Ok upd =>
          match mongo_fault env with
          | Some e => (w1, Throw e)
          | None =>
              match List.find (has_id oid) (db w) with
              | None => (w1, Ok None)
              | Some d =>
                  ({| db := replace_first (has_id oid) (Recipe_apply_update d upd) (db w);
                      cache := cache w; trace := trace w1 |},
                   Ok (Some (Recipe_hydrate (Recipe_apply_update d upd))))
              end
          end
      end
  end.
Proof.
  unfold findByIdAndUpdate, bind, emit, lift_result, mongo_guard, get_db, set_db, ret.
  cbv zeta.
  destruct (ObjectId_cast id); [|reflexivity].
  destruct (Recipe_cast_update update); [|reflexivity].
  destruct (mongo_fault env); [reflexivity|].
  cbn [db log]. destruct (List.find _ (db w)); reflexivity.
Qed.

Lemma findByIdAndDelete_run (id : string) (env : Env) (w : World) :
  findByIdAndDelete id env w =
  let w1 := log (EFindByIdAndDelete id) w in
  match ObjectId_cast id with
  | Throw e => (w1, Throw e)
  | Ok oid =>
      match mongo_fault env with
      | Some e => (w1, Throw e)
      | None =>
          match List.find (has_id oid) (db w) with
          | None => (w1, Ok None)
          | Some d =>
              ({| db := remove_first (has_id oid) (db w);
                  cache := cache w; trace := trace w1 |},
                 Ok (Some (Recipe_hydrate d)))
          end
      end
  end.
Proof.
  unfold findByIdAndDelete, bind, emit, lift_result, mongo_guard, get_db, set_db, ret.
  cbv zeta.
  destruct (ObjectId_cast id); [|reflexivity].
  destruct (mongo_fault env); [reflexivity|].
  cbn [db log]. destruct (List.find _ (db w)); reflexivity.
Qed.

Lemma get_recipe_by_id_run (req : Request) (env : Env) (w : World) :
  get_recipe_by_id req env w =
  if negb (ObjectId_isValid (params_id req)) then
    (w, Ok {| status := 400; json := error_only "Invalid recipe ID format" |})
  else
    match findById (params_id req) env w with
    | (w1, Ok None) => (w1, Ok not_found)
    | (w1, Ok (Some r)) => (w1, Ok {| status := 200; json := r |})
    | (w1, Throw e) =>
        (log (EConsoleError "Error fetching recipe by ID:" e) w1,
         Ok {| status := 500;
               json := error_details "Failed to fetch recipe" (message e) |})
    end.
Proof.
  unfold get_recipe_by_id. destruct (negb _); [reflexivity|].
  unfold try_catch, bind.
  destruct (findById _ env w) as [w1 [[r|]|e]]; reflexivity.
Qed.

Lemma put_recipe_run (req : Request) (env : Env) (w : World) :
  put_recipe req env w =
  match findByIdAndUpdate (params_id req) (body req) env w with
  | (w1, Ok None) => (w1, Ok not_found)
  | (w1, Ok (Some r)) => (after_clear env w1, Ok {| status := 200; json := r |})
  | (w1, Throw e) =>
      (log (EConsoleError "Error updating recipe:" e) w1,
       Ok {| status := 400;
             json := error_details "Failed to update recipe" (message e) |})
  end.
Proof.
  unfold put_recipe, try_catch, bind.
  destruct (findByIdAndUpdate _ _ env w) as [w1 [[r|]|e]]; try reflexivity.
  now rewrite clearRecipeCache_eq.
Qed.

Lemma delete_recipe_run (req : Request) (env : Env) (w : World) :
  delete_recipe req env w =
  match findByIdAndDelete (params_id req) env w with
  | (w1, Ok None) => (w1, Ok not_found)
  | (w1, Ok (Some _)) =>
      (after_clear env w1,
       Ok {| status := 200;
             json := VObj [("message", VStr "Recipe deleted successfully")] |})
  | (w1, Throw e) =>
      (log (EConsoleError "Error deleting recipe:" e) w1,
       Ok {| status := 500;
             json := error_details "Failed to delete recipe" (message e) |})
  end.
Proof.
  unfold delete_recipe, try_catch, bind.
  destruct (findByIdAndDelete _ env w) as [w1 [[r|]|e]]; try reflexivity.
  now rewrite clearRecipeCache_eq.
Qed.

Lemma get_health_run (req : Request) (env : Env) (w : World) :
  get_health req env w =
  match redis_fault env PING with
  | Some e =>
      (log (ERedis PING) w,
       Ok {| status := 500; json := error_details "Health check failed" (message e) |})
  | None =>
      (log (ERedis PING) w,
       Ok {| status := 200;
             json := VObj [("mongoStatus",
                            VStr (if mongo_readyState env =? 1
                                  then "Healthy" else "Unhealthy"));
                           ("redisStatus", VStr "Healthy");
                           ("uptime", VNum (process_uptime env));
                           ("memoryUsage", process_memoryUsage env)] |})
  end.
Proof.
  unfold get_health, try_catch, bind, ask, redis_ping. rewrite redis_run.
  destruct (redis_fault env PING); reflexivity.
Qed.

(* Case analysis on every condition a run equation branches on, the
   innermost first. *)
Ltac split_run H :=
  repeat match type of H with
         | context [match ?x with _ => _ end] =>
             lazymatch x with
             | context [match _ with _ => _ end] => fail
             | _ => destruct x eqn:?
             end
         end;
  try discriminate H.




(** C9: a PUT or DELETE that ends in 404 has not evicted anything: the
    store and the cache are as before, the one thing done is the store
    lookup, and the identifier matches no document; and
    [clearRecipeCache] has run only where the store mutation was done
    (the response is then a 200). *)
Theorem C9_not_found_no_eviction (r : Route) (req : Request) (env : Env)
    (w w' : World) (resp : Response) :
  r = PutRecipe \/ r = DeleteRecipe ->
  handle r req env w = (w', Ok resp) ->
  (status resp = 404%nat ->
     db w' = db w /\ cache w' = cache w
     /\ (exists ev, trace w' = trace w ++ [ev] /\ is_store_event ev = true)
     /\ resp = not_found
     /\ exists oid, ObjectId_cast (params_id req) = Ok oid
          /\ List.find (has_id oid) (db w) = None)
  /\ (forall evs, trace w' = trace w ++ evs ->
        In (ERedis (DEL "recipes:*")) evs ->
        status resp = 200%nat
        /\ exists oid d, ObjectId_cast (params_id req) = Ok oid
             /\ List.find (has_id oid) (db w) = Some d).
Proof.
  intros [-> | ->] Hrun; cbn [handle] in Hrun.
  - rewrite put_recipe_run, findByIdAndUpdate_run in Hrun. cbv zeta in Hrun.
    split_run Hrun; injection Hrun as <- <-;
      (split;
       [ intros Hst; try discriminate Hst
       | intros evs Htr Hin;
         rewrite ?after_clear_trace in Htr; cbn [trace log] in Htr;
         rewrite <- ?app_assoc in Htr; apply app_inv_head in Htr; subst evs;
         first [ solve [cbn in Hin; intuition discriminate]
               | split; [reflexivity | eauto] ] ]).
    cbn [db cache trace log]. repeat split; eauto.
  - rewrite delete_recipe_run, findByIdAndDelete_run in Hrun. cbv zeta in Hrun.
    split_run Hrun; injection Hrun as <- <-;
      (split;
       [ intros Hst; try discriminate Hst
       | intros evs Htr Hin;
         rewrite ?after_clear_trace in Htr; cbn [trace log] in Htr;
         rewrite <- ?app_assoc in Htr; apply app_inv_head in Htr; subst evs;
         first [ solve [cbn in Hin; intuition discriminate]
               | split; [reflexivity | eauto] ] ]).
    cbn [db cache trace log]. repeat split; eauto.
Qed.

(** No mutation removes the cache entry of a list request: the entries
    the list endpoint wrote before a create, update or delete are all
    still there after it. *)
Lemma mutations_keep_list_entries (r : Route) (req : Request) (env : Env)
    (w w' : World) (resp : Response) (lr : Request) :
  r = PostRecipes \/ r = PutRecipe \/ r = DeleteRecipe ->
  handle r req env w = (w', Ok resp) ->
  cache w' !! request_key lr = cache w !! request_key lr.
Proof.
  intros [-> | [-> | ->]] Hrun; cbn [handle] in Hrun.
  - rewrite post_recipes_run in Hrun. cbv zeta in Hrun.
    split_run Hrun; injection Hrun as <- <-;
      rewrite ?after_clear_list_entry; reflexivity.
  - rewrite put_recipe_run, findByIdAndUpdate_run in Hrun. cbv zeta in Hrun.
    split_run Hrun; injection Hrun as <- <-;
      rewrite ?after_clear_list_entry; reflexivity.
  - rewrite delete_recipe_run, findByIdAndDelete_run in Hrun. cbv zeta in Hrun.
    split_run Hrun; injection Hrun as <- <-;
      rewrite ?after_clear_list_entry; reflexivity.
Qed.

(** C1, on the code: the entry a list request finds in the cache before a
    successful create, update or delete is still found after it, and the
    repeated list request is answered with that pre-mutation value,
    without a store read.  The cached list entries are not evicted. *)
Theorem C1_stale_entry_survives_mutation (r : Route) (req lr : Request)
    (env env' : Env) (w w' : World) (resp : Response) (q : Filter)
    (entry : Entry) (v : value) :
  r = PostRecipes \/ r = PutRecipe \/ r = DeleteRecipe ->
  handle r req env w = (w', Ok resp) ->
  (status resp < 400)%nat ->
  query_result (search lr) (difficulty lr) = Ok q ->
  redis_fault env' (GET (request_key lr)) = None ->
  cache w !! request_key lr = Some entry ->
  string_truthy (entry_value entry) = true ->
  JSON_parse (entry_value entry) = Some v ->
  get_recipes lr env' w'
  = (log (ERedis (GET (request_key lr))) w', Ok {| status := 200; json := v |}).
Proof.
  intros Hr Hrun _ Hq Hget Hentry Ht Hparse.
  apply (get_recipes_hit lr env' w' q entry v); auto.
  now rewrite (mutations_keep_list_entries r req env w w' resp lr Hr Hrun).
Qed.

(** *** Further properties of the handlers *)

(** X1: the health check always answers, and touches neither store nor
    cache.  It answers 500 "Health check failed" exactly when the Redis
    ping throws; otherwise it answers 200, also when MongoDB is not
    connected, which only shows as [mongoStatus] "Unhealthy". *)
Theorem X1_health_report (req : Request) (env : Env) (w : World) :
  exists resp,
    get_health req env w = (log (ERedis PING) w, Ok resp)
    /\ (redis_fault env PING = None ->
          status resp = 200%nat
          /\ get_field "redisStatus" (Some (json resp)) = Some (VStr "Healthy")
          /\ get_field "mongoStatus" (Some (json resp))
             = Some (VStr (if mongo_readyState env =? 1 then "Healthy" else "Unhealthy"))
          /\ get_field "uptime" (Some (json resp)) = Some (VNum (process_uptime env)))
    /\ (forall e, redis_fault env PING = Some e ->
          resp = {| status := 500;
                    json := VObj [("error", VStr "Health check failed");
                                  ("details", VStr (message e))] |}).
Proof.
  rewrite get_health_run.
  destruct (redis_fault env PING) as [e|].
  - eexists. split; [reflexivity|]. split; [discriminate|].
    now intros e' [= <-].
  - eexists. split; [reflexivity|]. split; [|discriminate].
    intros _. repeat split; reflexivity.
Qed.

(** X2: a create always answers.  Either the document passes validation
    and the store takes it (201 with the document, appended to the
    collection), or the answer is a 400 carrying the message of the
    validation or store error, and then nothing was stored, the cache is
    as before and no Redis command was sent. *)
Theorem X2_create_outcomes (req : Request) (env : Env) (w : World) :
  let doc := Recipe_new (new_ObjectId env) (body req) in
  exists w' resp,
    post_recipes req env w = (w', Ok resp)
    /\ ((Recipe_validate doc = None /\ mongo_fault env = None
         /\ resp = {| status := 201; json := doc |}
         /\ db w' = db w ++ [doc])
        \/ (exists e,
              (Recipe_validate doc = Some e
               \/ (Recipe_validate doc = None /\ mongo_fault env = Some e))
              /\ resp = {| status := 400;
                           json := VObj [("error", VStr "Failed to create recipe");
                                         ("details", VStr (message e))] |}
              /\ db w' = db w /\ cache w' = cache w
              /\ trace w' = trace w ++ [ESave doc;
                                        EConsoleError "Error creating recipe:" e])).
Proof.
  intros doc. rewrite post_recipes_run. cbv zeta. fold doc.
  destruct (Recipe_validate doc) as [e|] eqn:Ev.
  - eexists _, _. split; [reflexivity|]. right. exists e.
    cbn [log db cache trace]. rewrite <- app_assoc. auto 10.
  - destruct (mongo_fault env) as [e|] eqn:Em.
    + eexists _, _. split; [reflexivity|]. right. exists e.
      cbn [log db cache trace]. rewrite <- app_assoc. auto 10.
    + eexists _, _. split; [reflexivity|]. left.
      rewrite after_clear_db. auto.
Qed.

(** X3: a failing eviction changes nothing for the caller.  For a create,
    update or delete, the response and the resulting collection are the
    same whatever Redis does: the mutation is not rolled back and the
    failure is not reported. *)
Theorem X3_eviction_failure_absorbed (r : Route) (req : Request) (env env' : Env)
    (w : World) :
  r = PostRecipes \/ r = PutRecipe \/ r = DeleteRecipe ->
  mongo_fault env = mongo_fault env' ->
  new_ObjectId env = new_ObjectId env' ->
  snd (handle r req env w) = snd (handle r req env' w)
  /\ db (fst (handle r req env w)) = db (fst (handle r req env' w)).
Proof.
  intros [-> | [-> | ->]] Hm Hid; cbn [handle].
  - rewrite !post_recipes_run. cbv zeta. rewrite <- Hm, <- Hid.
    destruct (Recipe_validate _); [split; reflexivity|].
    destruct (mongo_fault env); [split; reflexivity|].
    cbn [fst snd]. rewrite !after_clear_db. split; reflexivity.
  - rewrite !put_recipe_run, !findByIdAndUpdate_run. cbv zeta. rewrite <- Hm.
    destruct (ObjectId_cast _); [|split; reflexivity].
    destruct (Recipe_cast_update _); [|split; reflexivity].
    destruct (mongo_fault env); [split; reflexivity|].
    destruct (List.find _ _); [|split; reflexivity].
    cbn [fst snd]. rewrite !after_clear_db. split; reflexivity.
  - rewrite !delete_recipe_run, !findByIdAndDelete_run. cbv zeta. rewrite <- Hm.
    destruct (ObjectId_cast _); [|split; reflexivity].
    destruct (mongo_fault env); [split; reflexivity|].
    destruct (List.find _ _); [|split; reflexivity].
    cbn [fst snd]. rewrite !after_clear_db. split; reflexivity.
Qed.

(** X4: an identifier that does not cast is treated differently by the
    three routes: GET answers 400 with [error] alone and never asks the
    store (when [isValid] rejects it), PUT answers 400 and DELETE answers
    500, both with the message of the cast error; in all three the store
    and the cache are left as they were. *)
Theorem X4_malformed_identifier (req : Request) (env : Env) (w : World) (e : Error) :
  ObjectId_cast (params_id req) = Throw e ->
  ObjectId_isValid (params_id req) = false ->
  get_recipe_by_id req env w
  = (w, Ok {| status := 400;
              json := VObj [("error", VStr "Invalid recipe ID format")] |})
  /\ (exists w',
        put_recipe req env w
        = (w', Ok {| status := 400;
                     json := VObj [("error", VStr "Failed to update recipe");
                                   ("details", VStr (message e))] |})
        /\ db w' = db w /\ cache w' = cache w)
  /\ (exists w',
        delete_recipe req env w
        = (w', Ok {| status := 500;
                     json := VObj [("error", VStr "Failed to delete recipe");
                                   ("details", VStr (message e))] |})
        /\ db w' = db w /\ cache w' = cache w).
Proof.
  intros Hcast Hvalid. split; [|split].
  - rewrite get_recipe_by_id_run, Hvalid. reflexivity.
  - rewrite put_recipe_run, findByIdAndUpdate_run, Hcast. cbv zeta.
    eexists. split; [reflexivity|]. split; reflexivity.
  - rewrite delete_recipe_run, findByIdAndDelete_run, Hcast. cbv zeta.
    eexists. split; [reflexivity|]. split; reflexivity.
Qed.

(** X5: when the store is unreachable, the status depends on the route:
    create and update report it as a 400, fetch-by-id and delete as a
    500, each with the message of the store error as [details]; nothing
    is stored and the cache is not touched. *)
Theorem X5_store_fault_statuses (req : Request) (env : Env) (w : World)
    (e : Error) (oid : string) (upd : value) :
  mongo_fault env = Some e ->
  ObjectId_isValid (params_id req) = true ->
  ObjectId_cast (params_id req) = Ok oid ->
  Recipe_cast_update (body req) = Ok upd ->
  Recipe_validate (Recipe_new (new_ObjectId env) (body req)) = None ->
  forall r, r = PostRecipes \/ r = GetRecipeById \/ r = PutRecipe \/ r = DeleteRecipe ->
  exists w' msg,
    handle r req env w
    = (w', Ok {| status := match r with
                           | PostRecipes | PutRecipe => 400
                           | _ => 500
                           end;
                 json := VObj [("error", VStr msg); ("details", VStr (message e))] |})
    /\ db w' = db w /\ cache w' = cache w.
Proof.
  intros Hm Hvalid Hcast Hupd Hval r [-> | [-> | [-> | ->]]]; cbn [handle].
  - rewrite post_recipes_run. cbv zeta. rewrite Hval, Hm.
    eexists _, _. split; [reflexivity|]. split; reflexivity.
  - rewrite get_recipe_by_id_run, Hvalid, findById_run, Hcast, Hm. cbv zeta. cbn [negb].
    eexists _, _. split; [reflexivity|]. split; reflexivity.
  - rewrite put_recipe_run, findByIdAndUpdate_run, Hcast, Hupd, Hm. cbv zeta.
    eexists _, _. split; [reflexivity|]. split; reflexivity.
  - rewrite delete_recipe_run, findByIdAndDelete_run, Hcast, Hm. cbv zeta.
    eexists _, _. split; [reflexivity|]. split; reflexivity.
Qed.


(** X6: the list endpoint never changes the collection, and changes the
    cache in one way only: after a 200 built from the store, the entry
    under the key of the request holds the text of the response sent,
    with a time to live of 3600 seconds.  Every other outcome leaves the
    cache as it was. *)
Theorem X6_list_read_only (req : Request) (env : Env) (w w' : World)
    (r : result Response) :
  get_recipes req env w = (w', r) ->
  db w' = db w
  /\ (cache w' = cache w
      \/ exists resp,
           r = Ok resp /\ status resp = 200%nat
           /\ cache w'
              = <[request_key req := {| entry_value := JSON_stringify (json resp);
                                        entry_ttl := 3600 |}]> (cache w)).
Proof.
  rewrite get_recipes_run.
  destruct (query_result _ _) as [q|e]; [|intros [= <- <-]; auto].
  destruct (cache_check_total (request_key req) env w)
    as (w1 & hit & Hc & Hdb & Hcache & _).
  rewrite Hc. destruct hit as [response|]; [intros [= <- <-]; auto|].
  destruct (fetch_from_database q req env w1) as [w2 r2] eqn:Ef.
  apply fetch_from_database_inv in Ef
    as [(sk & lim & _ & _ & _ & _ & _ & -> & ->) | (e & _ & -> & ->)];
    intros [= <- <-].
  - rewrite after_set_db, after_set_cache. cbn [log db cache].
    split; [exact Hdb|].
    destruct (redis_fault env _); [left; exact Hcache|].
    right. eexists. split; [reflexivity|]. split; [reflexivity|].
    cbn [json]. now rewrite Hcache, Hdb.
  - cbn [log db cache]. auto.
Qed.

(** X7: a search text or a difficulty that is not a regular expression
    leaves the request unanswered: the handler throws before its [try],
    with the SyntaxError, having read no cache and asked no store (the
    difficulty is compiled first, and only when it is not empty). *)
Theorem X7_invalid_pattern_unanswered (req : Request) (env : Env) (w : World)
    (e : Error) :
  RegExp_syntax_error (search req) "i" = Some e ->
  difficulty req = "" \/ RegExp_syntax_error (difficulty req) "i" = None ->
  get_recipes req env w = (w, Throw e)
  /\ (forall (req' : Request) e',
        difficulty req' <> "" ->
        RegExp_syntax_error (difficulty req') "i" = Some e' ->
        get_recipes req' env w = (w, Throw e')).
Proof.
  intros Hs Hd. split.
  - assert (Hqr : query_result (search req) (difficulty req) = Throw e).
    { unfold query_result. destruct Hd as [Hd|Hd].
      - rewrite Hd. cbn [string_truthy String.eqb negb]. now rewrite Hs.
      - destruct (string_truthy (difficulty req)); rewrite ?Hd, Hs; reflexivity. }
    now rewrite get_recipes_run, Hqr.
  - intros req' e' Hne He. rewrite get_recipes_run. unfold query_result.
    assert (Ht : string_truthy (difficulty req') = true).
    { unfold string_truthy. apply negb_true_iff. now apply String.eqb_neq. }
    now rewrite Ht, He.
Qed.

Lemma fetch_from_database_ext (q : Filter) (r1 r2 : Request) (env : Env) (w : World) :
  page r1 = page r2 -> pageSize r1 = pageSize r2 ->
  search r1 = search r2 -> difficulty r1 = difficulty r2 ->
  fetch_from_database q r1 env w = fetch_from_database q r2 env w.
Proof.
  intros Hp Hs Hq Hd. rewrite !fetch_from_database_run.
  unfold shaped, request_key. now rewrite Hp, Hs, Hq, Hd.
Qed.

(** X8: the list endpoint reads nothing of a request but the four
    normalized parameters: two requests that agree on the raw page, the
    clamped page size, the search text and the difficulty are answered
    alike in every world (so [pageSize=150] is answered as
    [pageSize=100], and a search given twice as no search). *)
Theorem X8_list_depends_on_normalized (r1 r2 : Request) (env : Env) (w : World) :
  page r1 = page r2 -> pageSize r1 = pageSize r2 ->
  search r1 = search r2 -> difficulty r1 = difficulty r2 ->
  get_recipes r1 env w = get_recipes r2 env w.
Proof.
  intros Hp Hs Hq Hd. rewrite !get_recipes_run.
  assert (Hk : request_key r1 = request_key r2).
  { unfold request_key. now rewrite Hp, Hs, Hq, Hd. }
  rewrite Hk, Hq, Hd.
  destruct (query_result _ _) as [q|e]; [|reflexivity].
  destruct (cache_check (request_key r2) env w) as [w1 [[response|]|e]];
    try reflexivity.
  now rewrite (fetch_from_database_ext q r1 r2 env w1 Hp Hs Hq Hd).
Qed.

(** X9: a cached text that is empty or does not parse is a miss, not an
    error: the store is asked, the answer is the fresh PageResult, and the
    entry is overwritten with it. *)
Theorem X9_unusable_entry_is_a_miss (req : Request) (env : Env) (w : World)
    (q : Filter) (entry : Entry) (sk lim : Z) :
  query_result (search req) (difficulty req) = Ok q ->
  redis_fault env (GET (request_key req)) = None ->
  cache w !! request_key req = Some entry ->
  string_truthy (entry_value entry) = false \/ JSON_parse (entry_value entry) = None ->
  mongo_fault env = None ->
  paginates req sk lim ->
  (forall text, redis_fault env (SET (request_key req) text 3600) = None) ->
  exists w',
    get_recipes req env w
    = (w', Ok {| status := 200; json := fresh_page req q sk lim (db w) |})
    /\ cache w' !! request_key req
       = Some {| entry_value := JSON_stringify (fresh_page req q sk lim (db w));
                 entry_ttl := 3600 |}
    /\ In (EAggregate (request_pipeline req q)) (trace w').
Proof.
  intros Hq Hget Hentry Hbad Hm Hp Hset.
  assert (Hc : exists w1, cache_check (request_key req) env w = (w1, Ok None)).
  { rewrite cache_check_run, Hget, Hentry.
    destruct (string_truthy (entry_value entry)) eqn:Et; [|eauto].
    destruct Hbad as [Hbad | ->]; [discriminate | eauto]. }
  destruct Hc as (w1 & Hc).
  eexists. split; [exact (get_recipes_store_path _ _ _ _ _ _ _ Hq Hc Hm Hp)|].
  rewrite after_set_cache, after_set_trace, Hset. cbn [log cache trace].
  split; [apply lookup_insert_eq|].
  apply in_or_app. left. apply in_or_app. right. now left.
Qed.

Lemma page_of_docs_length_eq (q : Filter) (sk lim : Z) (docs : list value) :
  length (page_of_docs q sk lim docs)
  = Nat.min (Z.to_nat lim) (length (matching q docs) - Z.to_nat sk).
Proof.
  unfold page_of_docs.
  rewrite length_map, length_firstn, length_skipn.
  now rewrite (Permutation_length (by_title_perm (matching q docs))).
Qed.

(** X10: a page holds exactly the documents that are left for it: with
    [total] matching documents, [sk] skipped and a limit [lim], the
    response carries [min lim (total - sk)] recipes, none at all for a
    page past the end, while [totalRecipes] still counts every match. *)
Theorem X10_page_length (req : Request) (env : Env) (w w1 w' : World)
    (resp : Response) :
  cache_check (request_key req) env w = (w1, Ok None) ->
  get_recipes req env w = (w', Ok resp) ->
  status resp = 200%nat ->
  exists recipes total sk lim,
    get_field "recipes" (Some (json resp)) = Some (VArr recipes)
    /\ get_field "totalRecipes" (Some (json resp)) = Some (VNum (num total))
    /\ paginates req sk lim
    /\ total = Z.of_nat (length (matching (list_query (search req) (difficulty req)) (db w)))
    /\ Z.of_nat (length recipes) = Z.min lim (Z.max 0 (total - sk))
    /\ (total <= sk -> recipes = []).
Proof.
  intros Hc Hrun Hst.
  destruct (get_recipes_miss_inv _ _ _ _ _ _ Hc Hrun) as (q & Hq & [H|H]).
  2: { destruct H as (e & _ & -> & _). discriminate. }
  apply query_result_ok in Hq. subst q.
  destruct H as (sk & lim & _ & Hsk & Hsk0 & Hlim & Hlim0 & -> & _).
  set (q := list_query (search req) (difficulty req)).
  exists (page_of_docs q sk lim (db w)), (Z.of_nat (length (matching q (db w)))), sk, lim.
  pose proof (page_of_docs_length_eq q sk lim (db w)) as Hlen.
  split; [reflexivity|]. split; [reflexivity|].
  split; [unfold paginates; auto|]. split; [reflexivity|].
  split; [lia|].
  intros Hpast. destruct (page_of_docs q sk lim (db w)); [reflexivity|].
  cbn [length] in Hlen. lia.
Qed.

Lemma filter_none {A : Type} (f : A -> bool) (l : list A) :
  (forall x, In x l -> f x = false) -> List.filter f l = [].
Proof.
  induction l as [|x l IH]; intros H; [reflexivity|].
  cbn [List.filter]. rewrite (H x (or_introl eq_refl)).
  apply IH. intros y Hy. apply H. now right.
Qed.


(** X12: the recipes of a built PageResult carry the projected fields
    only: every property of every recipe object is [_id] or one of
    [title], [ingredients], [utensils], [difficulty], [total time],
    [instructions]; whatever else a document stores is not sent. *)
Theorem X12_projected_fields_only (req : Request) (env : Env) (w w1 w' : World)
    (resp : Response) :
  cache_check (request_key req) env w = (w1, Ok None) ->
  get_recipes req env w = (w', Ok resp) ->
  status resp = 200%nat ->
  exists recipes,
    get_field "recipes" (Some (json resp)) = Some (VArr recipes)
    /\ forall fs k v,
         In (VObj fs) recipes -> In (k, v) fs ->
         k = "_id" \/ In k projected_fields.
Proof.
  intros Hc Hrun Hst.
  destruct (get_recipes_miss_inv _ _ _ _ _ _ Hc Hrun) as (q & Hq & [H|H]).
  2: { destruct H as (e & _ & -> & _). discriminate. }
  destruct H as (sk & lim & _ & _ & _ & _ & _ & -> & _).
  exists (page_of_docs q sk lim (db w)). split; [reflexivity|].
  intros fs k v Hin Hk. unfold page_of_docs in Hin.
  apply in_map_iff in Hin as (d & Hd & _).
  destruct d as [ | | | | |fs0]; try discriminate Hd.
  cbn [project] in Hd. injection Hd as <-.
  apply filter_In in Hk as [_ Hk0].
  assert (Hk : String.eqb k "_id" || existsb (String.eqb k) projected_fields = true)
    by exact Hk0.
  clear Hk0. apply orb_true_iff in Hk as [Hk|Hk].
  - left. now apply String.eqb_eq.
  - right. apply existsb_exists in Hk as (k' & Hin' & Heq).
    apply String.eqb_eq in Heq. now subst.
Qed.


Lemma append_inv_head (a b c : string) : a +:+ b = a +:+ c -> b = c.
Proof.
  induction a as [|x a IH]; cbn [String.append]; [auto|].
  intros [= H]. auto.
Qed.

Lemma append_inv_tail (a b c : string) : a +:+ c = b +:+ c -> a = b.
Proof.
  revert b. induction a as [|x a IH]; intros [|y b] H; cbn [String.append] in H.
  - reflexivity.
  - exfalso. apply (f_equal String.length) in H.
    cbn [String.length] in H. rewrite length_append in H. lia.
  - exfalso. apply (f_equal String.length) in H.
    cbn [String.length] in H. rewrite length_append in H. lia.
  - injection H as -> H. f_equal. now apply IH.
Qed.

(** X13: with the page, the page size and the difficulty fixed, the key
    tells search texts apart: two keys are equal only for the same search
    text, letter case included, so "Apple" and "apple" are cached under
    different keys although the store matches them alike. *)
Theorem X13_key_separates_search (p : value) (ps : number) (s1 s2 d : string) :
  cacheKey p ps s1 d = cacheKey p ps s2 d <-> s1 = s2.
Proof.
  split; [|now intros ->].
  unfold cacheKey. intros H.
  repeat (apply append_inv_head in H).
  now apply append_inv_tail in H.
Qed.

(** X14: the key does not escape its delimiters, so different queries
    can share a key: a search text ending in [&difficulty=d] with no
    difficulty, and the same text without that ending with the difficulty
    [d&difficulty=], get one key; once the first is cached, the second is
    answered with the first one's PageResult. *)
Theorem X14_key_collision (pg ps : option value) (s d : string) (env : Env)
    (w : World) (q : Filter) (entry : Entry) (v : value) :
  let a := list_request pg ps (Some (VStr (s +:+ "&difficulty=" +:+ d))) None in
  let b := list_request pg ps (Some (VStr s)) (Some (VStr (d +:+ "&difficulty="))) in
  query_result (search b) (difficulty b) = Ok q ->
  redis_fault env (GET (request_key b)) = None ->
  cache w !! request_key a = Some entry ->
  string_truthy (entry_value entry) = true ->
  JSON_parse (entry_value entry) = Some v ->
  request_key a = request_key b
  /\ search a <> search b
  /\ get_recipes b env w
     = (log (ERedis (GET (request_key b))) w, Ok {| status := 200; json := v |}).
Proof.
  intros a b Hq Hget Hentry Ht Hparse.
  assert (Hk : request_key a = request_key b).
  { unfold request_key, cacheKey, page, pageSize, search, difficulty, a, b.
    destruct (list_request_params pg ps (Some (VStr (s +:+ "&difficulty=" +:+ d))) None)
      as (-> & -> & -> & ->).
    destruct (list_request_params pg ps (Some (VStr s)) (Some (VStr (d +:+ "&difficulty="))))
      as (-> & -> & -> & ->).
    now rewrite !append_assoc, append_nil_r. }
  split; [exact Hk|]. split.
  - unfold search, a, b.
    destruct (list_request_params pg ps (Some (VStr (s +:+ "&difficulty=" +:+ d))) None)
      as (_ & _ & -> & _).
    destruct (list_request_params pg ps (Some (VStr s)) (Some (VStr (d +:+ "&difficulty="))))
      as (_ & _ & -> & _).
    intros H. apply (f_equal String.length) in H.
    rewrite !length_append in H. cbn [String.length] in H. lia.
  - apply (get_recipes_hit b env w q entry v); auto.
    now rewrite <- Hk.
Qed.

Lemma console_only_no_redis (tl : list Event) :
  (forall ev, In ev tl -> exists l e, ev = EConsoleError l e) ->
  List.filter is_redis_event tl = [].
Proof.
  intros H. apply filter_none. intros ev Hin.
  destruct (H ev Hin) as (l & e & ->). reflexivity.
Qed.

(** X15: one list request does each thing at most once and nothing else:
    it sends Redis one GET, or one GET and then one SET, both for the key
    of the request, and never a DEL; it asks the store at most once.  A
    failed command is not tried again. *)
Theorem X15_list_bounded_effects (req : Request) (env : Env) (w w' : World)
    (r : result Response) :
  get_recipes req env w = (w', r) ->
  exists evs,
    trace w' = trace w ++ evs
    /\ (evs = []
        \/ List.filter is_redis_event evs = [ERedis (GET (request_key req))]
        \/ exists text,
             List.filter is_redis_event evs
             = [ERedis (GET (request_key req));
                ERedis (SET (request_key req) text 3600)])
    /\ (List.filter is_store_event evs = []
        \/ exists q,
             List.filter is_store_event evs = [EAggregate (request_pipeline req q)]).
Proof.
  rewrite get_recipes_run.
  destruct (query_result _ _) as [q|e].
  2: { intros [= <- <-]. exists []. rewrite app_nil_r. auto. }
  destruct (cache_check_total (request_key req) env w)
    as (w1 & hit & Hc & _ & _ & tl & Htr & Htl).
  pose proof (console_only_no_redis tl Htl) as Hr.
  pose proof (console_only_no_store tl Htl) as Hs.
  rewrite Hc. destruct hit as [response|].
  { intros [= <- <-]. exists (ERedis (GET (request_key req)) :: tl).
    split; [exact Htr|]. cbn [List.filter is_redis_event is_store_event].
    rewrite Hr, Hs. auto. }
  destruct (fetch_from_database q req env w1) as [w2 r2] eqn:Ef.
  apply fetch_from_database_inv in Ef
    as [(sk & lim & _ & _ & _ & _ & _ & -> & ->) | (e & _ & -> & ->)];
    intros [= <- <-].
  - rewrite after_set_trace. cbn [log trace]. rewrite Htr.
    eexists. split; [rewrite <- !app_assoc; reflexivity|].
    cbn [app List.filter is_redis_event is_store_event].
    rewrite !List.filter_app, Hr, Hs.
    cbn [app List.filter is_redis_event is_store_event].
    split.
    + right. right. eexists.
      destruct (redis_fault env _); reflexivity.
    + right. exists q. destruct (redis_fault env _); reflexivity.
  - cbn [log trace]. rewrite Htr.
    eexists. split; [rewrite <- !app_assoc; reflexivity|].
    cbn [app List.filter is_redis_event is_store_event].
    rewrite !List.filter_app, Hr, Hs.
    cbn [app List.filter is_redis_event is_store_event].
    split; [auto | right; exists q; reflexivity].
Qed.


Lemma replace_first_length (p : value -> bool) (d' : value) (l : list value) :
  length (replace_first p d' l) = length l.
Proof.
  induction l as [|d l IH]; [reflexivity|].
  cbn [replace_first]. destruct (p d); cbn [length]; [reflexivity | now rewrite IH].
Qed.

Lemma remove_first_length (p : value -> bool) (l : list value) (d : value) :
  List.find p l = Some d -> S (length (remove_first p l)) = length l.
Proof.
  induction l as [|x l IH]; [discriminate|].
  cbn [List.find remove_first]. destruct (p x); cbn [length]; [reflexivity|].
  intros H. now rewrite (IH H).
Qed.

Lemma find_none_filter (p : value -> bool) (l : list value) :
  List.filter p l = [] -> List.find p l = None.
Proof.
  induction l as [|x l IH]; [reflexivity|].
  cbn [List.filter List.find]. destruct (p x); [discriminate | exact IH].
Qed.

Lemma find_remove_first_unique (p : value -> bool) (l : list value) :
  length (List.filter p l) = 1%nat -> List.find p (remove_first p l) = None.
Proof.
  induction l as [|x l IH]; [discriminate|].
  cbn [List.filter remove_first]. destruct (p x) eqn:E.
  - cbn [length]. intros H. apply find_none_filter.
    destruct (List.filter p l); [reflexivity | discriminate].
  - intros H. cbn [List.find]. rewrite E. now apply IH.
Qed.

Lemma find_app_last (p : value -> bool) (l : list value) (d : value) :
  List.find p l = None -> p d = true -> List.find p (l ++ [d]) = Some d.
Proof.
  induction l as [|x l IH]; cbn [app List.find].
  - intros _ ->. reflexivity.
  - destruct (p x); [discriminate | exact IH].
Qed.

(** X16: fetching one recipe changes nothing.  Whatever the answer, the
    collection and the cache are as before and no Redis command is sent;
    a 200 carries the first stored document with the requested
    identifier as the model hydrates it, and a 404 means no document has
    the identifier. *)
Theorem X16_fetch_one_read_only (req : Request) (env : Env) (w w' : World)
    (resp : Response) :
  get_recipe_by_id req env w = (w', Ok resp) ->
  db w' = db w /\ cache w' = cache w
  /\ List.filter is_redis_event (trace w') = List.filter is_redis_event (trace w)
  /\ (status resp = 200%nat ->
        exists oid d, ObjectId_cast (params_id req) = Ok oid
          /\ List.find (has_id oid) (db w) = Some d
          /\ json resp = Recipe_hydrate d
          /\ In d (db w) /\ has_id oid d = true)
  /\ (status resp = 404%nat ->
        exists oid, ObjectId_cast (params_id req) = Ok oid
          /\ forall d, In d (db w) -> has_id oid d = false).
Proof.
  rewrite get_recipe_by_id_run, findById_run. cbv zeta. intros Hrun.
  split_run Hrun; injection Hrun as <- <-; cbn [log db cache trace status json];
    rewrite ?List.filter_app; cbn [List.filter is_redis_event]; rewrite ?app_nil_r;
    (split; [reflexivity|]); (split; [reflexivity|]); (split; [reflexivity|]);
    (split; intros Hst; try discriminate Hst).
  - match goal with H : List.find _ _ = Some _ |- _ =>
      pose proof (find_some _ _ H) as [Hin Hid] end.
    eexists _, _. split; [first [reflexivity | eassumption]|]. eauto.
  - eexists. split; [first [reflexivity | eassumption]|]. intros d Hd.
    match goal with H : List.find _ _ = None |- _ =>
      exact (find_none _ _ H d Hd) end.
Qed.

(** X17: a successful update answers 200 with the updated document as
    the model hydrates it; in the collection the updated document has
    taken the place of the first document with that identifier, the
    collection keeps its size, and [DEL recipes:*] has been sent. *)
Theorem X17_update_replaces (req : Request) (env : Env) (w w' : World)
    (resp : Response) :
  put_recipe req env w = (w', Ok resp) ->
  status resp = 200%nat ->
  exists oid upd d,
    ObjectId_cast (params_id req) = Ok oid
    /\ Recipe_cast_update (body req) = Ok upd
    /\ List.find (has_id oid) (db w) = Some d
    /\ json resp = Recipe_hydrate (Recipe_apply_update d upd)
    /\ db w' = replace_first (has_id oid) (Recipe_apply_update d upd) (db w)
    /\ length (db w') = length (db w)
    /\ In (ERedis (DEL "recipes:*")) (trace w').
Proof.
  rewrite put_recipe_run, findByIdAndUpdate_run. cbv zeta. intros Hrun Hst.
  split_run Hrun; injection Hrun as <- <-; try discriminate Hst.
  eexists _, _, _. split; [reflexivity|]. split; [reflexivity|].
  split; [first [reflexivity | eassumption]|]. split; [reflexivity|].
  rewrite after_clear_db, after_clear_trace. cbn [db json trace log].
  split; [reflexivity|]. split; [apply replace_first_length|].
  apply in_or_app. right. now left.
Qed.

(** X18: a successful delete answers 200 with a confirmation and removes
    one document, the first with that identifier; and where identifiers
    are unique in the collection, fetching the same identifier afterwards
    is a 404. *)
Theorem X18_delete_removes_one (req : Request) (env env' : Env) (w w' : World)
    (resp : Response) :
  delete_recipe req env w = (w', Ok resp) ->
  status resp = 200%nat ->
  exists oid d,
    ObjectId_cast (params_id req) = Ok oid
    /\ List.find (has_id oid) (db w) = Some d
    /\ json resp = VObj [("message", VStr "Recipe deleted successfully")]
    /\ db w' = remove_first (has_id oid) (db w)
    /\ S (length (db w')) = length (db w)
    /\ (length (List.filter (has_id oid) (db w)) = 1%nat ->
        ObjectId_isValid (params_id req) = true ->
        mongo_fault env' = None ->
        exists w'', get_recipe_by_id req env' w' = (w'', Ok not_found)).
Proof.
  rewrite delete_recipe_run, findByIdAndDelete_run. cbv zeta. intros Hrun Hst.
  split_run Hrun; injection Hrun as <- <-; try discriminate Hst.
  match goal with H : List.find _ _ = Some _ |- _ => rename H into Hfind end.
  eexists _, _. split; [reflexivity|]. split; [exact Hfind|].
  split; [reflexivity|].
  rewrite after_clear_db. cbn [db].
  split; [reflexivity|]. split; [exact (remove_first_length _ _ _ Hfind)|].
  intros Huniq Hvalid Hm.
  rewrite get_recipe_by_id_run, Hvalid, findById_run. cbv zeta. cbn [negb].
  match goal with H : ObjectId_cast _ = Ok _ |- _ => rewrite H end.
  rewrite Hm, after_clear_db. cbn [db].
  rewrite (find_remove_first_unique _ _ Huniq). eauto.
Qed.

(** X19: a recipe that was created can be fetched: after a 201, a fetch
    by the new identifier answers 200 with the document of the 201 as the
    model hydrates it, which is the very document of the 201 where
    hydration adds nothing to a document the model has built, provided
    the schema stores the identifier it was given and no older document
    has it. *)
Theorem X19_create_then_fetch (req : Request) (env env' : Env) (w w' : World)
    (resp : Response) (oid : string) :
  post_recipes req env w = (w', Ok resp) ->
  status resp = 201%nat ->
  ObjectId_isValid (new_ObjectId env) = true ->
  ObjectId_cast (new_ObjectId env) = Ok oid ->
  has_id oid (Recipe_new (new_ObjectId env) (body req)) = true ->
  List.find (has_id oid) (db w) = None ->
  mongo_fault env' = None ->
  exists w'',
    get_recipe_by_id {| query := []; params_id := new_ObjectId env; body := VNull |}
                     env' w'
    = (w'', Ok {| status := 200; json := Recipe_hydrate (json resp) |})
    /\ (Recipe_hydrate (json resp) = json resp ->
        get_recipe_by_id {| query := []; params_id := new_ObjectId env; body := VNull |}
                         env' w'
        = (w'', Ok {| status := 200; json := json resp |})).
Proof.
  rewrite post_recipes_run. cbv zeta. intros Hrun Hst Hvalid Hcast Hid Hnone Hm.
  split_run Hrun; injection Hrun as <- <-; try discriminate Hst.
  rewrite get_recipe_by_id_run. cbn [params_id]. rewrite Hvalid, findById_run.
  cbv zeta. cbn [negb]. rewrite Hcast, Hm, after_clear_db. cbn [db json].
  rewrite (find_app_last _ _ _ Hnone Hid).
  eexists. split; [reflexivity|]. now intros ->.
Qed.


Lemma firstn_add {A : Type} (a b : nat) (l : list A) :
  firstn (a + b) l = firstn a l ++ firstn b (skipn a l).
Proof.
  revert l. induction a as [|a IH]; intros l; [reflexivity|].
  destruct l as [|x l]; cbn [Nat.add firstn skipn app].
  - now rewrite firstn_nil.
  - now rewrite IH.
Qed.

Lemma skip_of_page_number (k lim : Z) :
  safe_int k = true ->
  number_int (skip_of (VStr (string_of_Z k)) (num lim)) = Some ((k - 1) * lim).
Proof.
  intros Hk. unfold skip_of. cbn [Number_].
  rewrite (Number_of_string_of_Z _ Hk).
  unfold number_sub, number_neg, number_add, number_mul, num, fin.
  apply number_int_Qeq.
  rewrite !Qred_correct.
  unfold Qeq, inject_Z, Qplus, Qmult, Qopp. cbn [Qnum Qden]. lia.
Qed.

Lemma pages_concat (q : Filter) (lim : Z) (docs : list value) (n : nat) :
  0 < lim ->
  concat (map (fun k => page_of_docs q (Z.of_nat k * lim) lim docs) (seq 0 n))
  = map (project projected_fields)
        (firstn (n * Z.to_nat lim) (by_title (matching q docs))).
Proof.
  intros Hlim. induction n as [|n IH]; [reflexivity|].
  rewrite seq_S, map_app, concat_app, IH. cbn [Nat.add map concat].
  rewrite app_nil_r. unfold page_of_docs at 1.
  replace (Z.to_nat (Z.of_nat n * lim)) with (n * Z.to_nat lim)%nat by nia.
  rewrite <- map_app, <- firstn_add.
  replace (S n * Z.to_nat lim)%nat with (n * Z.to_nat lim + Z.to_nat lim)%nat by lia.
  reflexivity.
Qed.

Lemma string_compare_trans (a b c : string) :
  String.compare a b <> Gt -> String.compare b c <> Gt -> String.compare a c <> Gt.
Proof.
  revert b c. induction a as [|x a IH]; intros [|y b] [|z c]; cbn [String.compare];
    try congruence.
  unfold Ascii.compare.
  destruct (N.compare_spec (N_of_ascii x) (N_of_ascii y)) as [E1|L1|G1];
    destruct (N.compare_spec (N_of_ascii y) (N_of_ascii z)) as [E2|L2|G2];
    try congruence; intros H1 H2.
  - rewrite E1, E2, N.compare_refl. eauto.
  - rewrite E1. now apply N.compare_lt_iff in L2 as ->.
  - rewrite <- E2. now apply N.compare_lt_iff in L1 as ->.
  - assert (L : (N_of_ascii x < N_of_ascii z)%N) by lia.
    now apply N.compare_lt_iff in L as ->.
Qed.

Lemma string_leb_trans (a b c : string) :
  String.leb a b = true -> String.leb b c = true -> String.leb a c = true.
Proof.
  unfold String.leb. intros H1 H2.
  pose proof (string_compare_trans a b c) as H.
  destruct (String.compare a b), (String.compare b c), (String.compare a c);
    try discriminate; try reflexivity; exfalso; apply H; congruence.
Qed.

Lemma key_le_trans (a b c : option string) :
  key_le a b = true -> key_le b c = true -> key_le a c = true.
Proof.
  destruct a, b, c; cbn [key_le]; try congruence. apply string_leb_trans.
Qed.

Lemma key_le_antisym (a b : option string) :
  key_le a b = true -> key_le b a = true -> a = b.
Proof.
  destruct a, b; cbn [key_le]; try congruence.
  intros H1 H2. f_equal. now apply String.leb_antisym.
Qed.

Lemma title_le_key (a b : value) :
  title_le a b <-> key_le (sort_key "title" a) (sort_key "title" b) = true.
Proof. reflexivity. Qed.

Lemma title_le_trans (a b c : value) : title_le a b -> title_le b c -> title_le a c.
Proof. rewrite !title_le_key. apply key_le_trans. Qed.

Lemma sorted_strongly (l : list value) : Sorted title_le l -> StronglySorted title_le l.
Proof. apply Sorted_StronglySorted. intros a b c. apply title_le_trans. Qed.

Lemma key_injective (l : list value) (a b : value) :
  List.NoDup (map (sort_key "title") l) -> In a l -> In b l ->
  sort_key "title" a = sort_key "title" b -> a = b.
Proof.
  induction l as [|x l IH]; [intros _ []|].
  cbn [map]. intros Hnd Ha Hb Hk. apply List.NoDup_cons_iff in Hnd as [Hx Hnd].
  destruct Ha as [<-|Ha], Hb as [<-|Hb]; auto.
  - exfalso. apply Hx. rewrite Hk. now apply in_map.
  - exfalso. apply Hx. rewrite <- Hk. now apply in_map.
Qed.

(** With pairwise different titles there is one title order. *)
Lemma sorted_unique (l1 l2 : list value) :
  List.NoDup (map (sort_key "title") l1) ->
  Permutation l1 l2 -> Sorted title_le l1 -> Sorted title_le l2 -> l1 = l2.
Proof.
  intros Hnd Hp H1 H2. apply sorted_strongly in H1, H2.
  revert l2 Hp H2. induction H1 as [|x l1 Hs1 IH Hx]; intros l2 Hp H2.
  - now apply Permutation_nil in Hp.
  - destruct H2 as [|y l2 Hs2 Hy]; [now apply Permutation_sym, Permutation_nil in Hp|].
    assert (Exy : x = y).
    { assert (Hyin : In y (x :: l1)).
      { apply (Permutation_in _ (Permutation_sym Hp)). now left. }
      assert (Hxin : In x (y :: l2)).
      { apply (Permutation_in _ Hp). now left. }
      rewrite List.Forall_forall in Hx, Hy.
      destruct Hyin as [E|Hyin]; [exact E|].
      destruct Hxin as [E|Hxin]; [now symmetry|].
      apply (key_injective (x :: l1)); [exact Hnd | now left | now right |].
      apply key_le_antisym; [exact (Hx y Hyin) | exact (Hy x Hxin)]. }
    subst y. f_equal. cbn [map] in Hnd. apply List.NoDup_cons_iff in Hnd as [_ Hnd].
    apply IH; [exact Hnd | now apply Permutation_cons_inv in Hp | exact Hs2].
Qed.

Lemma page_request_paginates (k : nat) (lim : Z) (s d : option value) :
  1 <= lim <= 100 -> Z.of_nat k + 1 <= MAX_SAFE_INTEGER ->
  paginates (page_request k lim s d) (Z.of_nat k * lim) lim.
Proof.
  intros Hlim Hk. unfold paginates, page_request.
  assert (Hps : pageSize (list_request (Some (VStr (string_of_Z (Z.of_nat k + 1))))
                            (Some (VStr (string_of_Z lim))) s d) = num lim).
  { apply pageSize_kept.
    - apply Number_of_string_of_Z. apply Z.leb_le. unfold MAX_SAFE_INTEGER. lia.
    - unfold Qeq, inject_Z. simpl. lia.
    - unfold Qle, inject_Z. simpl. lia. }
  rewrite Hps. unfold page.
  destruct (list_request_params (Some (VStr (string_of_Z (Z.of_nat k + 1))))
              (Some (VStr (string_of_Z lim))) s d) as (-> & _).
  rewrite skip_of_page_number by (apply Z.leb_le; lia).
  rewrite number_int_num.
  replace (Z.of_nat k + 1 - 1) with (Z.of_nat k) by lia.
  repeat split; [nia | lia].
Qed.

(** X20: where the matching recipes have pairwise different titles,
    walking the pages in order yields every one of them once, in title
    order.  Their title order is then the only one there is, whatever
    the store does with equal titles; the request for page [k + 1] at
    page size [lim] that misses the cache is answered with the documents
    from [k * lim] on, [lim] at most; and the recipes of the first [n]
    pages, put end to end, are all the matching documents once [n * lim]
    reaches their number. *)
Theorem X20_pages_partition (s d : option value) (lim : Z) (n : nat) (env : Env)
    (w : World) (q : Filter) :
  1 <= lim <= 100 ->
  Z.of_nat n <= MAX_SAFE_INTEGER ->
  query_result (search (page_request 0 lim s d)) (difficulty (page_request 0 lim s d))
  = Ok q ->
  mongo_fault env = None ->
  distinct_titles (matching q (db w)) ->
  Z.of_nat (length (matching q (db w))) <= Z.of_nat n * lim ->
  (forall l,
      Permutation l (matching q (db w)) -> Sorted title_le l ->
      l = by_title (matching q (db w)))
  /\ (forall (k : nat) wk w1,
        (k < n)%nat -> db wk = db w ->
        cache_check (request_key (page_request k lim s d)) env wk = (w1, Ok None) ->
        exists w' resp,
          get_recipes (page_request k lim s d) env wk = (w', Ok resp)
          /\ status resp = 200%nat
          /\ get_field "recipes" (Some (json resp))
             = Some (VArr (page_of_docs q (Z.of_nat k * lim) lim (db w))))
  /\ concat (map (fun k => page_of_docs q (Z.of_nat k * lim) lim (db w)) (seq 0 n))
     = map (project projected_fields) (by_title (matching q (db w))).
Proof.
  intros Hlim Hn Hq Hm Hnd Hlen. split; [|split].
  - intros l Hp Hs. apply sorted_unique.
    + unfold distinct_titles in Hnd.
      apply (Permutation.Permutation_NoDup
               (Permutation_map (sort_key "title") (Permutation_sym Hp)) Hnd).
    + now rewrite Hp, by_title_perm.
    + exact Hs.
    + apply by_title_sorted.
  - intros k wk w1 Hk Hdb Hc.
    assert (Hq' : query_result (search (page_request k lim s d))
                               (difficulty (page_request k lim s d)) = Ok q).
    { revert Hq. unfold page_request, search, difficulty.
      destruct (list_request_params (Some (VStr (string_of_Z (Z.of_nat 0 + 1))))
                  (Some (VStr (string_of_Z lim))) s d) as (_ & _ & -> & ->).
      destruct (list_request_params (Some (VStr (string_of_Z (Z.of_nat k + 1))))
                  (Some (VStr (string_of_Z lim))) s d) as (_ & _ & -> & ->).
      auto. }
    eexists _, _. split.
    + apply (get_recipes_store_path _ _ _ _ q (Z.of_nat k * lim) lim Hq' Hc Hm).
      apply page_request_paginates; [exact Hlim | lia].
    + rewrite Hdb. split; reflexivity.
  - rewrite pages_concat, firstn_all2; [reflexivity | | lia].
    rewrite (Permutation_length (by_title_perm (matching q (db w)))). nia.
Qed.

End Server.


(** ** The handlers on the concrete runtime *)
Module Run.

Import Sample.

Definition handle : Route -> Request -> M Response :=
  handle Number_other toString_other JSON_parse_other
         RegExp_syntax_error RegExp_test
         Recipe_new Recipe_validate Recipe_cast_update Recipe_apply_update
         ObjectId_isValid ObjectId_cast Recipe_hydrate.

Definition serve : Route -> Incoming -> M Reply :=
  serve Number_other toString_other JSON_parse_other
        RegExp_syntax_error RegExp_test
        Recipe_new Recipe_validate Recipe_cast_update Recipe_apply_update
        ObjectId_isValid ObjectId_cast Recipe_hydrate
        bodyParser_json Express_error_page.

Definition get_recipes : Request -> M Response :=
  get_recipes Number_other toString_other JSON_parse_other
              RegExp_syntax_error RegExp_test.

Definition request_key : Request -> string :=
  request_key Number_other toString_other.

Definition pageSize : Request -> number := pageSize Number_other toString_other.

Definition sent_bytes : Response -> string := sent_bytes toString_other.

(** [GET /recipes] without parameters. *)
Definition list_all : Request := list_request None None None None.

(** A Redis that refuses every command. *)
Definition cache_down : Env :=
  {| redis_fault := fun _ => Some {| message := "connect ECONNREFUSED" |};
     mongo_fault := None;
     mongo_readyState := 1;
     new_ObjectId := "64b7f0c2a1d3e4f5a6b7c8d9";
     process_uptime := num 12;
     process_memoryUsage := VObj [("rss", VNum (num 1024))] |}.

(** The list is fetched (and cached), a recipe is created, the list is
    fetched again. *)
Definition first_list : World * result Response := get_recipes list_all no_fault world0.

Definition create : World * result Response :=
  handle PostRecipes {| query := []; params_id := ""; body := banana_bread |}
         no_fault (fst first_list).

Definition second_list : World * result Response :=
  get_recipes list_all no_fault (fst create).

Definition response_of (r : World * result Response) : Response :=
  match snd r with
  | Ok resp => resp
  | Throw _ => {| status := 0; json := VNull |}
  end.

Definition totalRecipes_sent (r : World * result Response) : option value :=
  get_field "totalRecipes" (Some (json (response_of r))).

(** A recipe that takes a minute and a half: a number that is no
    integer. *)
Definition cheese_toast : value :=
  VObj [("_id", VStr "64b7f0c2a1d3e4f5a6b7c8d3");
        ("title", VStr "Cheese toast");
        ("total time", VNum (Fin (3 # 2)))].

Definition world_toast : World :=
  {| db := [cheese_toast]; cache := ∅; trace := [] |}.

Definition first_toast : World * result Response :=
  get_recipes list_all no_fault world_toast.











End Run.

(** ** The properties on concrete requests *)

(** C1, run: the list is cached with one recipe, a second recipe is
    created (201, two documents in the store, [DEL recipes:*] issued), and
    the repeated list request is answered from the cache with the
    pre-creation PageResult: [totalRecipes] is still 1. *)
Lemma C1_stale_entry_survives_mutation_witness :
  Run.get_recipes Run.list_all Sample.no_fault (fst Run.create)
  = (log (ERedis (GET (Run.request_key Run.list_all))) (fst Run.create),
     Ok {| status := 200; json := json (Run.response_of Run.first_list) |})
  /\ status (Run.response_of Run.create) = 201%nat
  /\ length (db (fst Run.create)) = 2%nat
  /\ In (ERedis (DEL "recipes:*")) (trace (fst Run.create))
  /\ Run.totalRecipes_sent Run.second_list = Some (VNum (num 1)).
Proof.
  split; [|vm_compute; intuition].
  apply (C1_stale_entry_survives_mutation
           Sample.Number_other Sample.toString_other Sample.JSON_parse_other
           Sample.RegExp_syntax_error Sample.RegExp_test
           Sample.Recipe_new Sample.Recipe_validate Sample.Recipe_cast_update
           Sample.Recipe_apply_update Sample.ObjectId_isValid Sample.ObjectId_cast
           Sample.Recipe_hydrate
           PostRecipes
           {| query := []; params_id := ""; body := Sample.banana_bread |}
           Run.list_all Sample.no_fault Sample.no_fault
           (fst Run.first_list) (fst Run.create) (Run.response_of Run.create)
           (list_query "" "")
           {| entry_value := Run.sent_bytes (Run.response_of Run.first_list);
              entry_ttl := 3600 |}
           (json (Run.response_of Run.first_list))).
  - left. reflexivity.
  - vm_compute. reflexivity.
  - vm_compute. lia.
  - reflexivity.
  - reflexivity.
  - vm_compute. reflexivity.
  - vm_compute. reflexivity.
  - vm_compute. reflexivity.
Defined.

(** C2, run: with a Redis that refuses every command the list request is
    answered 200 with the PageResult computed from the store. *)
Lemma C2_cache_failures_absorbed_witness :
  query_result Sample.RegExp_syntax_error "" "" = Ok (list_query "" "")
  /\ exists w',
       Run.get_recipes Run.list_all Run.cache_down Sample.world0
       = (w', Ok {| status := 200;
                    json := fresh_page Sample.RegExp_test Run.list_all
                              (list_query "" "") 0 10 (db Sample.world0) |})
       /\ In (EConsoleError "Redis fetch error:"
                            {| message := "connect ECONNREFUSED" |}) (trace w')
       /\ db w' = db Sample.world0.
Proof.
  split; [reflexivity|].
  destruct (C2_cache_failures_absorbed
              Sample.Number_other Sample.toString_other Sample.JSON_parse_other
              Sample.RegExp_syntax_error Sample.RegExp_test
              Run.list_all Run.cache_down Sample.world0 (list_query "" "")
              eq_refl) as (Hread & _).
  destruct (Hread {| message := "connect ECONNREFUSED" |} 0 10) as (w' & H1 & H2 & _ & H4).
  - reflexivity.
  - reflexivity.
  - split; [reflexivity|]. split; [lia|]. split; [reflexivity | lia].
  - exists w'. split; [exact H1|]. split; [exact H2 | exact H4].
Defined.

(** C3, run: page sizes 150 and 100 give one key. *)
Lemma C3_cache_key_determinism_witness :
  Run.request_key (list_request None (Some (VStr "150")) None None)
  = Run.request_key (list_request None (Some (VStr "100")) None None)
  /\ Run.request_key (list_request None (Some (VStr "150")) None None)
     = "recipes:page=1&pageSize=100&search=&difficulty=".
Proof.
  split; [|reflexivity].
  apply (C3_cache_key_determinism Sample.Number_other Sample.toString_other
           (list_request None (Some (VStr "150")) None None)
           (list_request None (Some (VStr "100")) None None));
    reflexivity.
Defined.

(** C4, as stated, fails twice over.  A page size of -5 is normalized to
    -5, which is not in [1,100]; and on a runtime that reads decimal
    fractions a page size of 2.5 is normalized to 2.5, which is no
    integer at all. *)
Lemma C4_counterexample :
  ~ (forall (Number_other : string -> number) (toString_other : Q -> string)
            (req : Request),
        exists z, pageSize Number_other toString_other req = num z /\ 1 <= z <= 100)
  /\ ~ (forall (Number_other : string -> number) (toString_other : Q -> string)
               (req : Request),
          exists z, pageSize Number_other toString_other req = num z).
Proof.
  split; intros H.
  - destruct (H Sample.Number_other Sample.toString_other
                (list_request None (Some (VStr "-5")) None None)) as (z & Hz & Hb).
    vm_compute in Hz. injection Hz as Hz. lia.
  - destruct (H Sample.Number_other Sample.toString_other
                (list_request None (Some (VStr "2.5")) None None)) as (z & Hz).
    vm_compute in Hz. discriminate Hz.
Qed.

(** C4, run: page sizes -5 and 2.5 are passed on as they are. *)
Lemma C4_page_size_capped_witness :
  Run.pageSize (list_request None (Some (VStr "-5")) None None) = num (-5)
  /\ Run.pageSize (list_request None (Some (VStr "2.5")) None None) = Fin (5 # 2).
Proof.
  destruct (C4_page_size_capped Sample.Number_other Sample.toString_other Run.list_all)
    as (_ & _ & _ & _ & _ & H5 & Hq).
  split.
  - apply H5.
  - apply Hq.
    + vm_compute. reflexivity.
    + vm_compute. discriminate.
    + vm_compute. discriminate.
Defined.

(** C5, run: the second of two identical list requests is answered from
    the cache with the bytes of the first, here over a collection whose
    one recipe holds the number 1.5. *)
Lemma C5_cache_population_idempotent_witness :
  Sample.contains "1.5" (Run.sent_bytes (Run.response_of Run.first_toast)) = true
  /\ exists resp2,
       Run.get_recipes Run.list_all Sample.no_fault (fst Run.first_toast)
       = (log (ERedis (GET (Run.request_key Run.list_all))) (fst Run.first_toast),
          Ok resp2)
       /\ Run.sent_bytes resp2 = Run.sent_bytes (Run.response_of Run.first_toast).
Proof.
  split; [vm_compute; reflexivity|].
  destruct (C5_cache_population_idempotent
              Sample.Number_other Sample.toString_other Sample.JSON_parse_other
              Sample.RegExp_syntax_error Sample.RegExp_test
              Run.list_all Sample.no_fault Sample.no_fault
              Run.world_toast (fst Run.first_toast) (Run.response_of Run.first_toast))
    as ((resp2 & H1 & H2 & _) & _).
  - reflexivity.
  - reflexivity.
  - intros text. reflexivity.
  - reflexivity.
  - vm_compute. reflexivity.
  - reflexivity.
  - right. split; [vm_compute; reflexivity|].
    exists (json (Run.response_of Run.first_toast)).
    split; vm_compute; reflexivity.
  - exists resp2. split; assumption.
Defined.



(** C7, run: the miss issues one store query. *)
Lemma C7_single_combined_query_witness :
  exists evs,
    trace (fst Run.first_list) = trace Sample.world0 ++ evs
    /\ List.filter is_store_event evs
       = [EAggregate (request_pipeline Sample.Number_other Sample.toString_other
                        Run.list_all (list_query "" ""))].
Proof.
  destruct (C7_single_combined_query
              Sample.Number_other Sample.toString_other Sample.JSON_parse_other
              Sample.RegExp_syntax_error Sample.RegExp_test
              Run.list_all Sample.no_fault Sample.world0
              (log (ERedis (GET (Run.request_key Run.list_all))) Sample.world0)
              (fst Run.first_list) (Run.response_of Run.first_list))
    as (H & _).
  - vm_compute. reflexivity.
  - vm_compute. reflexivity.
  - exact H.
Defined.



(** C9, run: a PUT for an identifier no document has is a 404 that
    leaves store and cache of the populated world as they were. *)
Lemma C9_not_found_no_eviction_witness :
  let req := {| query := []; params_id := "64b7f0c2a1d3e4f5a6b7c8d0";
                body := VObj [("title", VStr "Pear tart")] |} in
  let out := Run.handle PutRecipe req Sample.no_fault (fst Run.first_list) in
  status (Run.response_of out) = 404%nat
  /\ db (fst out) = db (fst Run.first_list)
  /\ cache (fst out) = cache (fst Run.first_list).
Proof.
  intros req out.
  destruct (C9_not_found_no_eviction
              Sample.Number_other Sample.toString_other Sample.JSON_parse_other
              Sample.RegExp_syntax_error Sample.RegExp_test
              Sample.Recipe_new Sample.Recipe_validate Sample.Recipe_cast_update
              Sample.Recipe_apply_update Sample.ObjectId_isValid Sample.ObjectId_cast
              Sample.Recipe_hydrate
              PutRecipe req Sample.no_fault (fst Run.first_list)
              (fst out) (Run.response_of out))
    as (H & _).
  - left. reflexivity.
  - vm_compute. reflexivity.
  - destruct (H eq_refl) as (H1 & H2 & _).
    split; [reflexivity | split; assumption].
Defined.



(** ** Further runs on the concrete runtime *)
Module More.

Import Sample.

(** A store that refuses every operation. *)
Definition store_down : Env :=
  {| redis_fault := fun _ => None;
     mongo_fault := Some {| message := "connect ECONNREFUSED 127.0.0.1:27017" |};
     mongo_readyState := 0;
     new_ObjectId := "64b7f0c2a1d3e4f5a6b7c8d9";
     process_uptime := num 12;
     process_memoryUsage := VObj [("rss", VNum (num 1024))] |}.

Definition apple_id : string := "64b7f0c2a1d3e4f5a6b7c8d1".

Definition by_id (id : string) (b : value) : Request :=
  {| query := []; params_id := id; body := b |}.

Definition get_recipe_by_id : Request -> M Response :=
  get_recipe_by_id ObjectId_isValid ObjectId_cast Recipe_hydrate.

Definition put_recipe : Request -> M Response :=
  put_recipe Recipe_cast_update Recipe_apply_update ObjectId_cast Recipe_hydrate.

Definition delete_recipe : Request -> M Response :=
  delete_recipe ObjectId_cast Recipe_hydrate.

Definition post_recipes : Request -> M Response :=
  post_recipes Recipe_new Recipe_validate.

(** A cache holding a text that is not JSON under the key of the plain
    list request. *)
Definition world_garbled : World :=
  {| db := [apple_pie];
     cache := {[ Run.request_key Run.list_all
                 := {| entry_value := "not json"; entry_ttl := 3600 |} ]};
     trace := [] |}.

(** A recipe whose title contains the delimiter of the key. *)
Definition odd_pie : value :=
  VObj [("_id", VStr "64b7f0c2a1d3e4f5a6b7c8d2");
        ("title", VStr "pie&difficulty=");
        ("difficulty", VStr "Easy")].

Definition world_odd : World := {| db := [odd_pie]; cache := ∅; trace := [] |}.

Definition request_a : Request :=
  list_request None None (Some (VStr ("pie" +:+ "&difficulty=" +:+ ""))) None.

Definition request_b : Request :=
  list_request None None (Some (VStr "pie")) (Some (VStr ("" +:+ "&difficulty="))).

Definition run_a : World * result Response :=
  Run.get_recipes request_a no_fault world_odd.


Definition run_update : World * result Response :=
  put_recipe (by_id apple_id (VObj [("title", VStr "Apple tart")])) no_fault world0.

Definition run_delete : World * result Response :=
  delete_recipe (by_id apple_id VNull) no_fault world0.

Definition run_create : World * result Response :=
  post_recipes (by_id "" banana_bread) no_fault world0.

(** Three recipes, stored out of title order. *)
Definition pantry : list value := [Run.cheese_toast; apple_pie; banana_bread].

End More.

(** X3, run: the create is answered alike with Redis up and down. *)
Lemma X3_eviction_failure_absorbed_witness :
  snd (Run.handle PostRecipes (More.by_id "" Sample.banana_bread)
                  Sample.no_fault Sample.world0)
  = snd (Run.handle PostRecipes (More.by_id "" Sample.banana_bread)
                    Run.cache_down Sample.world0).
Proof.
  apply (X3_eviction_failure_absorbed
           Sample.Number_other Sample.toString_other Sample.JSON_parse_other
           Sample.RegExp_syntax_error Sample.RegExp_test
           Sample.Recipe_new Sample.Recipe_validate Sample.Recipe_cast_update
           Sample.Recipe_apply_update Sample.ObjectId_isValid Sample.ObjectId_cast
           Sample.Recipe_hydrate
           PostRecipes (More.by_id "" Sample.banana_bread)
           Sample.no_fault Run.cache_down Sample.world0).
  - left. reflexivity.
  - reflexivity.
  - reflexivity.
Defined.

(** X4, run: the identifier [xyz] on DELETE is a 500. *)
Lemma X4_malformed_identifier_witness :
  exists w',
    More.delete_recipe (More.by_id "xyz" VNull) Sample.no_fault Sample.world0
    = (w', Ok {| status := 500;
                 json := VObj [("error", VStr "Failed to delete recipe");
                               ("details", VStr "Cast to ObjectId failed")] |}).
Proof.
  destruct (X4_malformed_identifier
              Sample.Recipe_cast_update Sample.Recipe_apply_update
              Sample.ObjectId_isValid Sample.ObjectId_cast Sample.Recipe_hydrate
              (More.by_id "xyz" VNull) Sample.no_fault Sample.world0
              {| message := "Cast to ObjectId failed" |})
    as (_ & _ & (w' & H & _)).
  - reflexivity.
  - reflexivity.
  - exists w'. exact H.
Defined.

(** X5, run: with the store down an update is a 400. *)
Lemma X5_store_fault_statuses_witness :
  exists w' msg,
    Run.handle PutRecipe (More.by_id More.apple_id Sample.banana_bread)
               More.store_down Sample.world0
    = (w', Ok {| status := 400;
                 json := VObj [("error", VStr msg);
                               ("details", VStr "connect ECONNREFUSED 127.0.0.1:27017")] |}).
Proof.
  destruct (X5_store_fault_statuses
              Sample.Number_other Sample.toString_other Sample.JSON_parse_other
              Sample.RegExp_syntax_error Sample.RegExp_test
              Sample.Recipe_new Sample.Recipe_validate Sample.Recipe_cast_update
              Sample.Recipe_apply_update Sample.ObjectId_isValid Sample.ObjectId_cast
              Sample.Recipe_hydrate
              (More.by_id More.apple_id Sample.banana_bread)
              More.store_down Sample.world0
              {| message := "connect ECONNREFUSED 127.0.0.1:27017" |}
              More.apple_id Sample.banana_bread
              eq_refl eq_refl eq_refl eq_refl eq_refl
              PutRecipe) as (w' & msg & H & _).
  - right. right. left. reflexivity.
  - exists w', msg. exact H.
Defined.

(** X6, run: the first list request leaves the collection alone. *)
Lemma X6_list_read_only_witness :
  db (fst Run.first_list) = db Sample.world0.
Proof.
  apply (X6_list_read_only
           Sample.Number_other Sample.toString_other Sample.JSON_parse_other
           Sample.RegExp_syntax_error Sample.RegExp_test
           Run.list_all Sample.no_fault Sample.world0
           (fst Run.first_list) (snd Run.first_list)).
  vm_compute. reflexivity.
Defined.

(** X7, run: the search text [(] leaves the request unanswered. *)
Lemma X7_invalid_pattern_unanswered_witness :
  exists e,
    Run.get_recipes (list_request None None (Some (VStr "(")) None)
                    Sample.no_fault Sample.world0
    = (Sample.world0, Throw e).
Proof.
  eexists.
  apply (X7_invalid_pattern_unanswered
           Sample.Number_other Sample.toString_other Sample.JSON_parse_other
           Sample.RegExp_syntax_error Sample.RegExp_test
           (list_request None None (Some (VStr "(")) None)
           Sample.no_fault Sample.world0).
  - reflexivity.
  - left. reflexivity.
Defined.

(** X8, run: page sizes 150 and 100 are answered alike. *)
Lemma X8_list_depends_on_normalized_witness :
  Run.get_recipes (list_request None (Some (VStr "150")) None None)
                  Sample.no_fault Sample.world0
  = Run.get_recipes (list_request None (Some (VStr "100")) None None)
                    Sample.no_fault Sample.world0.
Proof.
  apply (X8_list_depends_on_normalized
           Sample.Number_other Sample.toString_other Sample.JSON_parse_other
           Sample.RegExp_syntax_error Sample.RegExp_test
           (list_request None (Some (VStr "150")) None None)
           (list_request None (Some (VStr "100")) None None)
           Sample.no_fault Sample.world0); reflexivity.
Defined.

(** X9, run: a cached text that is not JSON is replaced by the fresh
    PageResult. *)
Lemma X9_unusable_entry_is_a_miss_witness :
  exists w',
    Run.get_recipes Run.list_all Sample.no_fault More.world_garbled
    = (w', Ok {| status := 200;
                 json := fresh_page Sample.RegExp_test Run.list_all
                           (list_query "" "") 0 10 (db More.world_garbled) |})
    /\ entry_value <$> cache w' !! Run.request_key Run.list_all
       = Some (Run.sent_bytes (Run.response_of Run.first_list)).
Proof.
  destruct (X9_unusable_entry_is_a_miss
              Sample.Number_other Sample.toString_other Sample.JSON_parse_other
              Sample.RegExp_syntax_error Sample.RegExp_test
              Run.list_all Sample.no_fault More.world_garbled (list_query "" "")
              {| entry_value := "not json"; entry_ttl := 3600 |} 0 10)
    as (w' & H1 & H2 & _).
  - reflexivity.
  - reflexivity.
  - vm_compute. reflexivity.
  - right. vm_compute. reflexivity.
  - reflexivity.
  - split; [reflexivity|]. split; [lia|]. split; [reflexivity | lia].
  - intros text. reflexivity.
  - exists w'. split; [exact H1|].
    change (Run.request_key Run.list_all)
      with (request_key Sample.Number_other Sample.toString_other Run.list_all).
    rewrite H2. vm_compute. reflexivity.
Defined.

(** X10, run: the one-recipe store gives a page of one. *)
Lemma X10_page_length_witness :
  exists recipes total sk lim,
    get_field "recipes" (Some (json (Run.response_of Run.first_list)))
    = Some (VArr recipes)
    /\ Z.of_nat (length recipes) = Z.min lim (Z.max 0 (total - sk)).
Proof.
  destruct (X10_page_length
              Sample.Number_other Sample.toString_other Sample.JSON_parse_other
              Sample.RegExp_syntax_error Sample.RegExp_test
              Run.list_all Sample.no_fault Sample.world0
              (log (ERedis (GET (Run.request_key Run.list_all))) Sample.world0)
              (fst Run.first_list) (Run.response_of Run.first_list))
    as (recipes & total & sk & lim & H1 & _ & _ & _ & H5 & _).
  - vm_compute. reflexivity.
  - vm_compute. reflexivity.
  - reflexivity.
  - exists recipes, total, sk, lim. split; assumption.
Defined.


(** X12, run: the recipes of the first list carry projected fields only. *)
Lemma X12_projected_fields_only_witness :
  exists recipes,
    get_field "recipes" (Some (json (Run.response_of Run.first_list)))
    = Some (VArr recipes)
    /\ forall fs k v,
         In (VObj fs) recipes -> In (k, v) fs ->
         k = "_id" \/ In k projected_fields.
Proof.
  apply (X12_projected_fields_only
           Sample.Number_other Sample.toString_other Sample.JSON_parse_other
           Sample.RegExp_syntax_error Sample.RegExp_test
           Run.list_all Sample.no_fault Sample.world0
           (log (ERedis (GET (Run.request_key Run.list_all))) Sample.world0)
           (fst Run.first_list) (Run.response_of Run.first_list)).
  - vm_compute. reflexivity.
  - vm_compute. reflexivity.
  - reflexivity.
Defined.

(** X14, run: the search [pie] with difficulty [&difficulty=] matches no
    document, yet is answered with the one recipe cached for the search
    [pie&difficulty=]. *)
Lemma X14_key_collision_witness :
  Run.request_key More.request_a = Run.request_key More.request_b
  /\ Run.get_recipes More.request_b Sample.no_fault (fst More.run_a)
     = (log (ERedis (GET (Run.request_key More.request_b))) (fst More.run_a),
        Ok {| status := 200; json := json (Run.response_of More.run_a) |})
  /\ Run.totalRecipes_sent More.run_a = Some (VNum (num 1))
  /\ matching Sample.RegExp_test
       (list_query "pie" "&difficulty=") (db (fst More.run_a)) = [].
Proof.
  destruct (X14_key_collision
              Sample.Number_other Sample.toString_other Sample.JSON_parse_other
              Sample.RegExp_syntax_error Sample.RegExp_test
              None None "pie" "" Sample.no_fault (fst More.run_a)
              (list_query "pie" "&difficulty=")
              {| entry_value := Run.sent_bytes (Run.response_of More.run_a);
                 entry_ttl := 3600 |}
              (json (Run.response_of More.run_a)))
    as (H1 & _ & H3).
  - reflexivity.
  - reflexivity.
  - vm_compute. reflexivity.
  - vm_compute. reflexivity.
  - vm_compute. reflexivity.
  - split; [exact H1|]. split; [exact H3|]. split; vm_compute; reflexivity.
Defined.

(** X15, run: the first list request sends one GET, one store query and
    one SET. *)
Lemma X15_list_bounded_effects_witness :
  exists evs,
    trace (fst Run.first_list) = trace Sample.world0 ++ evs
    /\ (List.filter is_store_event evs = []
        \/ exists q,
             List.filter is_store_event evs
             = [EAggregate (request_pipeline Sample.Number_other Sample.toString_other
                              Run.list_all q)]).
Proof.
  destruct (X15_list_bounded_effects
              Sample.Number_other Sample.toString_other Sample.JSON_parse_other
              Sample.RegExp_syntax_error Sample.RegExp_test
              Run.list_all Sample.no_fault Sample.world0
              (fst Run.first_list) (snd Run.first_list))
    as (evs & H1 & _ & H3).
  - vm_compute. reflexivity.
  - exists evs. split; assumption.
Defined.

(** X16, run: fetching the stored recipe changes nothing, and answers
    with the stored document and the defaults of the schema. *)
Lemma X16_fetch_one_read_only_witness :
  let out := More.get_recipe_by_id (More.by_id More.apple_id VNull)
                                   Sample.no_fault Sample.world0 in
  db (fst out) = db Sample.world0
  /\ json (Run.response_of out) = Sample.Recipe_hydrate Sample.apple_pie
  /\ get_field "utensils" (Some Sample.apple_pie) = None
  /\ get_field "utensils" (Some (json (Run.response_of out))) = Some (VArr []).
Proof.
  intros out.
  destruct (X16_fetch_one_read_only
              Sample.ObjectId_isValid Sample.ObjectId_cast Sample.Recipe_hydrate
              (More.by_id More.apple_id VNull) Sample.no_fault Sample.world0
              (fst out) (Run.response_of out))
    as (H1 & _).
  - vm_compute. reflexivity.
  - split; [exact H1|]. split; [reflexivity|]. split; reflexivity.
Defined.

(** X17, run: the update keeps the collection at one document. *)
Lemma X17_update_replaces_witness :
  length (db (fst More.run_update)) = length (db Sample.world0)
  /\ In (ERedis (DEL "recipes:*")) (trace (fst More.run_update)).
Proof.
  destruct (X17_update_replaces
              Sample.Recipe_cast_update Sample.Recipe_apply_update Sample.ObjectId_cast
              Sample.Recipe_hydrate
              (More.by_id More.apple_id (VObj [("title", VStr "Apple tart")]))
              Sample.no_fault Sample.world0
              (fst More.run_update) (Run.response_of More.run_update))
    as (oid & upd & d & _ & _ & _ & _ & _ & H6 & H7).
  - vm_compute. reflexivity.
  - reflexivity.
  - split; assumption.
Defined.

(** X18, run: after the delete the recipe is not found. *)
Lemma X18_delete_removes_one_witness :
  db (fst More.run_delete) = []
  /\ exists w'',
       More.get_recipe_by_id (More.by_id More.apple_id VNull)
                             Sample.no_fault (fst More.run_delete)
       = (w'', Ok not_found).
Proof.
  destruct (X18_delete_removes_one
              Sample.ObjectId_isValid Sample.ObjectId_cast Sample.Recipe_hydrate
              (More.by_id More.apple_id VNull) Sample.no_fault Sample.no_fault
              Sample.world0 (fst More.run_delete) (Run.response_of More.run_delete))
    as (oid & d & Hcast & _ & _ & _ & _ & H6).
  - vm_compute. reflexivity.
  - reflexivity.
  - split; [reflexivity|]. apply H6.
    + vm_compute in Hcast. injection Hcast as <-. reflexivity.
    + reflexivity.
    + reflexivity.
Defined.

(** X19, run: the created recipe is fetched by its new identifier. *)
Lemma X19_create_then_fetch_witness :
  exists w'',
    More.get_recipe_by_id (More.by_id "64b7f0c2a1d3e4f5a6b7c8d9" VNull)
                          Sample.no_fault (fst More.run_create)
    = (w'', Ok {| status := 200; json := json (Run.response_of More.run_create) |}).
Proof.
  destruct (X19_create_then_fetch
              Sample.Recipe_new Sample.Recipe_validate
              Sample.ObjectId_isValid Sample.ObjectId_cast Sample.Recipe_hydrate
              (More.by_id "" Sample.banana_bread) Sample.no_fault Sample.no_fault
              Sample.world0 (fst More.run_create) (Run.response_of More.run_create)
              "64b7f0c2a1d3e4f5a6b7c8d9")
    as (w'' & _ & H).
  - vm_compute. reflexivity.
  - reflexivity.
  - reflexivity.
  - reflexivity.
  - reflexivity.
  - reflexivity.
  - reflexivity.
  - exists w''. apply H. vm_compute. reflexivity.
Defined.

(** X20, run: three recipes at page size 2 come as a page of two and a
    page of one, which together are the three in title order. *)
Lemma X20_pages_partition_witness :
  concat (map (fun k => page_of_docs Sample.RegExp_test (list_query "" "")
                          (Z.of_nat k * 2) 2 More.pantry) (seq 0 2))
  = map (project projected_fields)
        (by_title (matching Sample.RegExp_test (list_query "" "") More.pantry))
  /\ map (sort_key "title")
         (by_title (matching Sample.RegExp_test (list_query "" "") More.pantry))
     = [Some "Apple pie"; Some "Banana bread"; Some "Cheese toast"].
Proof.
  split; [|reflexivity].
  apply (X20_pages_partition
           Sample.Number_other Sample.toString_other Sample.JSON_parse_other
           Sample.RegExp_syntax_error Sample.RegExp_test
           None None 2 2 Sample.no_fault
           {| db := More.pantry; cache := ∅; trace := [] |} (list_query "" "")).
  - lia.
  - vm_compute. discriminate.
  - reflexivity.
  - reflexivity.
  - unfold distinct_titles.
    repeat (constructor; [vm_compute; intuition discriminate|]). constructor.
  - vm_compute. discriminate.
Defined.
